(** * The retrieval-augmented answer pipeline of the Q&A dashboard

    A shallow embedding of [src/ai_service.py] (the classifier, the
    retriever, the answer generator with its provider fallback and the two
    category formatters), of [QADatabase.search_qa] from
    [src/mcp_qa_server.py] and of the formatting stage of [ask_ai] in
    [src/web_app_with_replies.py], followed by the properties of the
    specification that were checked against it.

    Python [str] values are sequences of Unicode code points and are modelled
    as [list Z].  Literals are written as UTF-8 text and decoded by [u]. *)

From Stdlib Require Import ZArith QArith Strings.String Strings.Ascii DecimalString.
From stdpp Require Import base option list gmap.

Local Open Scope Z_scope.

(** ** Strings as code points *)

Abbreviation str := (list Z).

Module Utf8.

(** [go need acc bs] decodes the bytes [bs]; [need] continuation bytes are
    still expected for the code point whose high bits are in [acc]. *)
Fixpoint go (need : nat) (acc : Z) (bs : list Z) : str :=
  match bs with
  | [] => []
  | b :: bs' =>
      match need with
      | O =>
          if b <? 0x80 then b :: go 0 0 bs'
          else if b <? 0xE0 then go 1 (Z.land b 0x1F) bs'
          else if b <? 0xF0 then go 2 (Z.land b 0x0F) bs'
          else go 3 (Z.land b 0x07) bs'
      | S n =>
          let acc' := Z.lor (Z.shiftl acc 6) (Z.land b 0x3F) in
          match n with
          | O => acc' :: go 0 0 bs'
          | S _ => go n acc' bs'
          end
      end
  end.

Fixpoint bytes (s : string) : list Z :=
  match s with
  | EmptyString => []
  | String a s' => Z.of_nat (nat_of_ascii a) :: bytes s'
  end.

Definition decode (s : string) : str := go 0 0 (bytes s).

End Utf8.

(** The code points of a literal of the source. *)
Definition u (s : string) : str := Utf8.decode s.

(** [needle in hay] of Python, for strings. *)
Fixpoint starts_with (p s : str) : bool :=
  match p, s with
  | [], _ => true
  | _ :: _, [] => false
  | a :: p', b :: s' => (a =? b) && starts_with p' s'
  end.

Fixpoint str_in (needle hay : str) : bool :=
  starts_with needle hay
  || match hay with
     | [] => false
     | _ :: hay' => str_in needle hay'
     end.

(** [sep.join(parts)]. *)
Fixpoint join (sep : str) (parts : list str) : str :=
  match parts with
  | [] => []
  | [p] => p
  | p :: rest => p ++ sep ++ join sep rest
  end.

(** ** Character classes of Python's [re] on [str] patterns *)

Module CharClass.

Definition in_range (lo hi c : Z) : bool := (lo <=? c) && (c <=? hi).
Definition chr (x c : Z) : bool := x =? c.

Definition digit (c : Z) : bool := in_range 48 57 c.          (* [0-9] *)
Definition letter (c : Z) : bool :=                              (* [a-zA-Z] *)
  in_range 97 122 c || in_range 65 90 c.
Definition letter_or_digit (c : Z) : bool :=                     (* [a-zA-Z0-9] *)
  in_range 97 122 c || in_range 65 90 c || in_range 48 57 c.
Definition operator (c : Z) : bool :=                            (* [+\-*/=] *)
  chr 43 c || chr 45 c || chr 42 c || chr 47 c || chr 61 c.
Definition not_backtick (c : Z) : bool := negb (chr 96 c).        (* [^`] *)
Definition any (c : Z) : bool := true.                           (* . with DOTALL *)

(** [\s]: the code points for which [str.isspace] holds. *)
Definition space (c : Z) : bool :=
  in_range 0x09 0x0D c || in_range 0x1C 0x1F c || chr 0x20 c
  || chr 0x85 c || chr 0xA0 c || chr 0x1680 c || in_range 0x2000 0x200A c
  || chr 0x2028 c || chr 0x2029 c || chr 0x202F c || chr 0x205F c || chr 0x3000 c.

(** [\w]: [str.isalnum] or the underscore.  On ASCII that is
    [[a-zA-Z0-9_]]; beyond ASCII it is the table [uni_alnum] of the Unicode
    database, which is a parameter of the development. *)
Definition word (uni_alnum : Z -> bool) (c : Z) : bool :=
  if c <? 128 then letter_or_digit c || chr 95 c else uni_alnum c.

End CharClass.

(** ** A backtracking matcher with the search order of [re] *)

Inductive regex : Type :=
  | Chr (p : Z -> bool)                (* one character of a class *)
  | Seq (r1 r2 : regex)                (* r1 r2 *)
  | Alt (r1 r2 : regex)                (* r1|r2 *)
  | Opt (r : regex)                    (* r?  *)
  | Star (greedy : bool) (r : regex)   (* r* and r*? *)
  | Group (i : nat) (r : regex).       (* the i-th capturing group *)

Definition Plus (r : regex) : regex := Seq r (Star true r).   (* r+ *)

Fixpoint Lit (s : str) : regex :=                             (* literal text *)
  match s with
  | [] => Opt (Chr (fun _ => false))
  | [c] => Chr (CharClass.chr c)
  | c :: s' => Seq (Chr (CharClass.chr c)) (Lit s')
  end.

Fixpoint OneOf (cs : str) : regex :=                          (* c1|c2|... *)
  match cs with
  | [] => Chr (fun _ => false)
  | [c] => Chr (CharClass.chr c)
  | c :: cs' => Alt (Chr (CharClass.chr c)) (OneOf cs')
  end.

(** What [m.group(i)] returns: [None] for a group that did not take part. *)
Abbreviation captures := (gmap nat str).

Section Matcher.
Context {R : Type}.

(** The repetition of a starred [body] on an input of at most [n]
    characters: greedy tries one more round first, lazy tries the rest of
    the pattern first.  A round has to consume input to count. *)
Fixpoint star_loop (greedy : bool)
    (body : str -> captures -> (str -> captures -> option R) -> option R)
    (k : str -> captures -> option R)
    (n : nat) (s : str) (cs : captures) {struct n} : option R :=
  match n with
  | O => k s cs
  | S n' =>
      let k' := fun s' cs' =>
        if (length s' <? length s)%nat then star_loop greedy body k n' s' cs'
        else None in
      if greedy
      then match body s cs k' with Some x => Some x | None => k s cs end
      else match k s cs with Some x => Some x | None => body s cs k' end
  end.

(** [run r s cs k] matches [r] at the head of [s] and hands the rest of the
    input and the groups to the continuation [k]; alternatives are tried in
    the order of a backtracking engine, so the first [Some] is the match
    [re] reports. *)
Fixpoint run (r : regex) (s : str) (cs : captures)
    (k : str -> captures -> option R) {struct r} : option R :=
  match r with
  | Chr p =>
      match s with
      | c :: s' => if p c then k s' cs else None
      | [] => None
      end
  | Seq r1 r2 => run r1 s cs (fun s1 cs1 => run r2 s1 cs1 k)
  | Alt r1 r2 =>
      match run r1 s cs k with
      | Some x => Some x
      | None => run r2 s cs k
      end
  | Opt r1 =>
      match run r1 s cs k with
      | Some x => Some x
      | None => k s cs
      end
  | Group i r1 =>
      run r1 s cs
        (fun s' cs' => k s' (<[i := take (length s - length s') s]> cs'))
  | Star greedy r1 => star_loop greedy (run r1) k (length s) s cs
  end.
End Matcher.

(** The match starting at the head of [s], if any: its groups and length. *)
Definition match_at (r : regex) (s : str) : option (captures * nat) :=
  run r s ∅ (fun s' cs => Some (cs, (length s - length s')%nat)).

(** [re.sub(r, repl, s)], scanning left to right; [skip] counts the characters
    of [s] still covered by the match that was replaced last. *)
Fixpoint sub_from (r : regex) (repl : captures -> str) (s : str) (skip : nat)
    : str :=
  match s with
  | [] =>
      match skip, match_at r [] with
      | O, Some (cs, _) => repl cs
      | _, _ => []
      end
  | c :: s' =>
      match skip with
      | S n => sub_from r repl s' n
      | O =>
          match match_at r s with
          | Some (cs, S n) => repl cs ++ sub_from r repl s' n
          | Some (cs, O) => repl cs ++ c :: sub_from r repl s' 0
          | None => c :: sub_from r repl s' 0
          end
      end
  end.

Definition re_sub (r : regex) (repl : captures -> str) (s : str) : str :=
  sub_from r repl s 0.

(** [\i] in a replacement template: the text of group [i]. *)
Definition group (cs : captures) (i : nat) : str := default [] (cs !! i).

(** ** [CategorySpecialization]: the category formatters *)

Section Formatters.
(** [str.isalnum] beyond ASCII. *)
Variable uni_alnum : Z -> bool.

Let w : regex := Chr (CharClass.word uni_alnum).          (* \w *)
Let sp : regex := Chr CharClass.space.                    (* \s *)
Let op : regex := Chr CharClass.operator.                 (* [+\-*/=] *)

(** [(\w+)\*\*(\w+)] *)
Definition exponent_pattern : regex :=
  Seq (Group 1 (Plus w))
    (Seq (Chr (CharClass.chr 42)) (Seq (Chr (CharClass.chr 42))
       (Group 2 (Plus w)))).

(** The template [$\1^{\2}$]. *)
Definition exponent_repl (cs : captures) : str :=
  u "$" ++ group cs 1 ++ u "^{" ++ group cs 2 ++ u "}$".

(** The symbols of the third pattern, in the order they are listed. *)
Definition math_glyphs : str := u "∫∑∏√∞παβγδθλμσφψω".

Definition math_patterns : list regex :=
  [ (* ([a-zA-Z]\s*[+\-*/=]\s*[a-zA-Z0-9]+) *)
    Group 1 (Seq (Chr CharClass.letter) (Seq (Star true sp) (Seq op
      (Seq (Star true sp) (Plus (Chr CharClass.letter_or_digit))))));
    (* ([0-9]+\s*[+\-*/=]\s*[0-9]+) *)
    Group 1 (Seq (Plus (Chr CharClass.digit)) (Seq (Star true sp) (Seq op
      (Seq (Star true sp) (Plus (Chr CharClass.digit))))));
    (* (∫|∑|∏|√|∞|π|α|β|γ|δ|θ|λ|μ|σ|φ|ψ|ω) *)
    Group 1 (OneOf math_glyphs) ].

(** The template [$\1$]. *)
Definition wrap_repl (cs : captures) : str := u "$" ++ group cs 1 ++ u "$".

Definition format_math_answer (answer : str) : str :=
  let formatted := re_sub exponent_pattern exponent_repl answer in
  fold_left (fun formatted pattern => re_sub pattern wrap_repl formatted)
    math_patterns formatted.

(** [```(\w+)?\n(.*?)\n```] with [re.DOTALL] *)
Definition code_pattern : regex :=
  Seq (Lit (u "```")) (Seq (Opt (Group 1 (Plus w))) (Seq (Chr (CharClass.chr 10))
    (Seq (Group 2 (Star false (Chr CharClass.any)))
       (Seq (Chr (CharClass.chr 10)) (Lit (u "```")))))).

(** [x or y] on strings, where [x] may be [None]. *)
Definition str_or (x : option str) (y : str) : str :=
  match x with
  | Some (c :: x') => c :: x'
  | _ => y
  end.

Definition replace_code (language : str) (cs : captures) : str :=
  let lang := str_or (cs !! 1%nat) language in
  let code := group cs 2 in
  u "```" ++ lang ++ [10] ++ code ++ [10] ++ u "```".

(** [`([^`]+)`] *)
Definition inline_code_pattern : regex :=
  Seq (Chr (CharClass.chr 96))
    (Seq (Group 1 (Plus (Chr CharClass.not_backtick))) (Chr (CharClass.chr 96))).

(** The template [<code>\1</code>]. *)
Definition inline_code_repl (cs : captures) : str :=
  u "<code>" ++ group cs 1 ++ u "</code>".

Definition format_code_answer (answer : str) (language : str) : str :=
  let formatted := re_sub code_pattern (replace_code language) answer in
  re_sub inline_code_pattern inline_code_repl formatted.

(** The default of the [language] argument. *)
Definition default_language : str := u "python".

End Formatters.

(** ** Case folding: [str.lower] *)

Section Lower.
(** The lower-case form of a code point beyond ASCII, which in Python may
    be several code points and may depend on the text before and after it
    (the final sigma); it comes from the Unicode database. *)
Variable uni_lower : str -> Z -> str -> str.

Definition lower_cp (before : str) (c : Z) (after : str) : str :=
  if CharClass.in_range 65 90 c then [c + 32]
  else if c <? 128 then [c]
  else uni_lower before c after.

Fixpoint lower_from (before s : str) : str :=
  match s with
  | [] => []
  | c :: s' => lower_cp before c s' ++ lower_from (before ++ [c]) s'
  end.

Definition lower (s : str) : str := lower_from [] s.
End Lower.

(** Hangul syllables, which have no case. *)
Definition hangul (c : Z) : bool := CharClass.in_range 0xAC00 0xD7A3 c.

(** ** [RAGService.classify_question_category] *)

Definition cat_math : str := u "수학".
Definition cat_science : str := u "과학".
Definition cat_programming : str := u "프로그래밍".
Definition cat_korean : str := u "국어".
Definition cat_english : str := u "영어".
Definition cat_general : str := u "일반".

Definition math_keywords : list str :=
  [u "수학"; u "계산"; u "공식"; u "방정식"; u "함수"; u "미분"; u "적분"; u "기하"; u "대수"].
Definition science_keywords : list str :=
  [u "과학"; u "물리"; u "화학"; u "생물"; u "실험"; u "원리"; u "법칙"].
Definition programming_keywords : list str :=
  [u "프로그래밍"; u "코딩"; u "파이썬"; u "자바스크립트"; u "알고리즘"; u "데이터베이스"].
Definition korean_keywords : list str :=
  [u "국어"; u "문법"; u "맞춤법"; u "문학"; u "작문"].
Definition english_keywords : list str :=
  [u "영어"; u "문법"; u "단어"; u "독해"; u "회화"].

Section Classifier.
Variable uni_lower : str -> Z -> str -> str.

(** [any(keyword in question_lower for keyword in keywords)] *)
Definition any_keyword_in (keywords : list str) (question_lower : str) : bool :=
  existsb (fun keyword => str_in keyword question_lower) keywords.

Definition classify_question_category (question : str) : str :=
  let question_lower := lower uni_lower question in
  if any_keyword_in math_keywords question_lower then cat_math
  else if any_keyword_in science_keywords question_lower then cat_science
  else if any_keyword_in programming_keywords question_lower then cat_programming
  else if any_keyword_in korean_keywords question_lower then cat_korean
  else if any_keyword_in english_keywords question_lower then cat_english
  else cat_general.
End Classifier.

(** ** [QADatabase.search_qa] and [RAGService.search_relevant_qa] *)

Module QAEntry.
Record t : Type := {
  id : str;
  question : str;
  answer : str;
  category : str;
  created_at : str;
  updated_at : str;
  tags : list str
}.
End QAEntry.

(** [data] is a Python dict: it is iterated in insertion order. *)
Record QADatabase : Type := {
  db_file : str;
  data : list (str * QAEntry.t)
}.

(** The dict built for each retrieved entry. *)
Record ContextItem : Type := {
  ci_question : str;
  ci_answer : str;
  ci_category : str;
  ci_tags : list str
}.

Section Retriever.
Variable uni_lower : str -> Z -> str -> str.
Let lower := lower uni_lower.

Definition entry_matches (query_lower : str) (category : option str)
    (entry : QAEntry.t) : bool :=
  (str_in query_lower (lower (QAEntry.question entry))
   || str_in query_lower (lower (QAEntry.answer entry))
   || existsb (fun tag => str_in query_lower (lower tag)) (QAEntry.tags entry))
  && match category with
     | None => true
     | Some category => bool_decide (lower (QAEntry.category entry) = lower category)
     end.

Definition search_qa (db : QADatabase) (query : str) (category : option str)
    : list QAEntry.t :=
  let query_lower := lower query in
  List.filter (entry_matches query_lower category) (map snd (data db)).

Definition search_relevant_qa (qa_database : option QADatabase)
    (question : str) (category : option str) : list ContextItem :=
  match qa_database with
  | None => []
  | Some db =>
      let results := search_qa db question category in
      map (fun entry =>
             {| ci_question := QAEntry.question entry;
                ci_answer := QAEntry.answer entry;
                ci_category := QAEntry.category entry;
                ci_tags := QAEntry.tags entry |})
          (take 3 results)          (* results[:3] *)
  end.
End Retriever.

(** ** The answer generator and its providers *)

(** [AIResponse]; the confidence is a constant of the path taken. *)
Module AIResponse.
Record t : Type := {
  answer : str;
  confidence : Q;
  category : str;
  sources : list str;
  reasoning : str
}.
End AIResponse.

Record RAGService : Type := {
  qa_database : option QADatabase;
  openai_api_key : option str;     (* os.getenv("OPENAI_API_KEY") *)
  claude_api_key : option str      (* os.getenv("ANTHROPIC_API_KEY") *)
}.

(** Truth value of an optional string: [None] and [''] are false. *)
Definition truthy (x : option str) : bool :=
  match x with
  | Some (_ :: _) => true
  | _ => false
  end.

Inductive endpoint : Type := OpenAI | Claude.

(** What comes back from [client.post(..., timeout=30.0)]: [body] is the text
    found in the JSON body at the place the provider puts its answer, [None]
    when the body is not JSON or has another shape. *)
Record response : Type := {
  status_code : Z;
  body : option str
}.

Inductive reply : Type :=
  | NoResponse                 (* the request raised: no connection, timeout *)
  | Responded (r : response).

(** The network: the reply to a request with a given key and prompt. *)
Abbreviation network := (endpoint -> str -> str -> reply).

Inductive exn : Type :=
  | RequestError (e : endpoint)
  | ApiError (e : endpoint) (status : Z)
  | MalformedBody (e : endpoint).

Inductive event : Type :=
  | Post (e : endpoint) (api_key prompt : str).

(** Computations that send requests and may raise: the requests sent, in
    order, and the exception or the value. *)
Definition M (A : Type) : Type := list event * (exn + A).

#[global] Instance M_ret : MRet M := fun A a => ([], inr a).

#[global] Instance M_bind : MBind M := fun A B f m =>
  match m with
  | (t, inl e) => (t, inl e)
  | (t, inr a) => let '(t', r) := f a in (t ++ t', r)
  end.

Definition raise {A : Type} (e : exn) : M A := ([], inl e).

(** [try: m except Exception as e: h e] *)
Definition try_except {A : Type} (m : M A) (h : exn -> M A) : M A :=
  match m with
  | (t, inl e) => let '(t', r) := h e in (t ++ t', r)
  | (t, inr a) => (t, inr a)
  end.

Definition trace {A : Type} (m : M A) : list event := fst m.
Definition outcome {A : Type} (m : M A) : exn + A := snd m.

Definition post (net : network) (e : endpoint) (api_key prompt : str) : M response :=
  ([Post e api_key prompt],
   match net e api_key prompt with
   | NoResponse => inl (RequestError e)
   | Responded r => inr r
   end).

(** [str(i)] *)
Definition decimal (i : nat) : str := u (NilEmpty.string_of_uint (Nat.to_uint i)).

Definition lines (ls : list str) : str := join [10] ls.

Section Generator.
Variable self : RAGService.
Variable net : network.

Definition _create_category_prompt (question category context : str) : str :=
  let base_prompt := lines
    [ u "질문: " ++ question;
      u "카테고리: " ++ category;
      [];
      context;
      [];
      u "위 정보를 참고하여 질문에 대한 전문적이고 정확한 답변을 한국어로 작성해주세요." ] in
  if bool_decide (category = cat_math) then lines
    [ base_prompt;
      [];
      u "수학 답변 가이드라인:";
      u "- 공식이나 수식이 포함된 경우 LaTeX 형식으로 작성 (예: $x^2 + y^2 = r^2$)";
      u "- 단계별로 풀이 과정을 명확히 설명";
      u "- 필요시 그래프나 도형 설명 포함";
      u "- 결과 검증 방법 제시" ]
  else if bool_decide (category = cat_science) then lines
    [ base_prompt;
      [];
      u "과학 답변 가이드라인:";
      u "- 과학적 원리와 법칙을 명확히 설명";
      u "- 실험이나 관찰 사례 포함";
      u "- 관련 공식이나 화학식 제시";
      u "- 실생활 응용 사례 언급" ]
  else if bool_decide (category = cat_programming) then lines
    [ base_prompt;
      [];
      u "프로그래밍 답변 가이드라인:";
      u "- 코드 예시를 포함하여 설명";
      u "- 각 단계별 주석과 설명";
      u "- 실행 결과나 출력 예시";
      u "- 최적화나 대안 방법 제시" ]
  else base_prompt.

Definition _call_openai (prompt category : str) (sources : list str) : M AIResponse.t :=
  response ← post net OpenAI (default [] (openai_api_key self)) prompt;
  if status_code response =? 200 then
    match body response with
    | Some answer =>
        mret {| AIResponse.answer := answer;
                AIResponse.confidence := 0.9;
                AIResponse.category := category;
                AIResponse.sources := sources;
                AIResponse.reasoning := u "OpenAI GPT-4를 사용한 답변" |}
    | None => raise (MalformedBody OpenAI)
    end
  else raise (ApiError OpenAI (status_code response)).

Definition _call_claude (prompt category : str) (sources : list str) : M AIResponse.t :=
  try_except
    (response ← post net Claude (default [] (claude_api_key self)) prompt;
     if status_code response =? 200 then
       match body response with
       | Some answer =>
           mret {| AIResponse.answer := answer;
                   AIResponse.confidence := 0.9;
                   AIResponse.category := category;
                   AIResponse.sources := sources;
                   AIResponse.reasoning := u "Claude AI를 사용한 답변" |}
       | None => raise (MalformedBody Claude)
       end
     else raise (ApiError Claude (status_code response)))
    (fun e => raise e).

(** The dict [fallback_responses]. *)
Definition fallback_responses : gmap str str :=
  <[cat_math := u "이 수학 문제를 해결하기 위해서는 단계별로 접근해보겠습니다. 주어진 조건을 정리하고, 관련 공식을 적용해보세요. 구체적인 계산 과정이 필요하시면 더 자세한 정보를 제공해주세요."]>
  (<[cat_science := u "이 과학 질문에 답하기 위해서는 관련 원리와 법칙을 이해하는 것이 중요합니다. 실험적 관찰이나 이론적 배경을 함께 고려해보시기 바랍니다."]>
  (<[cat_programming := u "이 프로그래밍 문제를 해결하기 위해서는 알고리즘을 단계별로 설계하고 구현해야 합니다. 코드 예시와 함께 설명드리겠습니다."]>
  (<[cat_general := u "질문에 대한 답변을 위해 관련 정보를 수집하고 분석해보겠습니다. 더 구체적인 내용이나 맥락을 제공해주시면 더 정확한 답변을 드릴 수 있습니다."]>
   ∅))).

Definition template_reasoning : str := u "기본 템플릿 기반 답변 (AI 서비스 미사용)".

Definition related_header : str := [10; 10] ++ u "참고한 관련 질문들:" ++ [10].

Definition _generate_fallback_answer (question category : str)
    (sources : list str) : AIResponse.t :=
  let base_answer :=
    default (fallback_responses !!! cat_general) (fallback_responses !! category) in
  let base_answer :=
    match sources with
    | [] => base_answer
    | _ :: _ =>
        base_answer ++ related_header
          ++ join [10] (map (fun source => u "- " ++ source) (take 3 sources))
    end in
  {| AIResponse.answer := base_answer;
     AIResponse.confidence := 0.6;
     AIResponse.category := category;
     AIResponse.sources := sources;
     AIResponse.reasoning := template_reasoning |}.

(** The numbered rendering of the context, counted from [i]. *)
Fixpoint context_entries (i : nat) (context : list ContextItem) : str :=
  match context with
  | [] => []
  | item :: rest =>
      decimal i ++ u ". Q: " ++ ci_question item ++ [10]
        ++ u "   A: " ++ ci_answer item ++ [10]
        ++ context_entries (S i) rest
  end.

Definition generate_ai_answer (question category : str)
    (context : option (list ContextItem)) : M AIResponse.t :=
  let '(context_text, sources) :=
    match context with
    | Some (item :: rest) =>
        ([10; 10] ++ u "관련 정보:" ++ [10] ++ context_entries 1 (item :: rest),
         map ci_question (item :: rest))
    | _ => ([], [])
    end in
  let prompt := _create_category_prompt question category context_text in
  try_except
    (if truthy (openai_api_key self) then _call_openai prompt category sources
     else if truthy (claude_api_key self) then _call_claude prompt category sources
     else mret (_generate_fallback_answer question category sources))
    (fun e => mret (_generate_fallback_answer question category sources)).

End Generator.

(** ** The pipeline of [ask_ai] *)

Section AskAi.
Variable uni_alnum : Z -> bool.
Variable uni_lower : str -> Z -> str -> str.
Variable rag_service : RAGService.
Variable net : network.

(** "Format answer based on category" *)
Definition formatted_answer (category answer : str) : str :=
  if bool_decide (category = cat_math) then format_math_answer uni_alnum answer
  else if bool_decide (category = cat_programming)
       then format_code_answer uni_alnum answer default_language
  else answer.

(** The part of [ask_ai] between the validation of the request and the
    JSON reply: the formatted answer, the category and the response of the
    generator. *)
Definition ask_ai (question : str) : M (str * str * AIResponse.t) :=
  let category := classify_question_category uni_lower question in
  let context :=
    search_relevant_qa uni_lower (qa_database rag_service) question (Some category) in
  ai_response ← generate_ai_answer rag_service net question category (Some context);
  mret (formatted_answer category (AIResponse.answer ai_response), category, ai_response).
End AskAi.

(** ** Notions used in the statements *)

(** [requires P r]: every match of [r] contains a character of the class [P]
    (a sufficient, syntactic condition). *)
Fixpoint requires (P : Z -> bool) (r : regex) : Prop :=
  match r with
  | Chr p => forall c, p c = true -> P c = true
  | Seq r1 r2 => requires P r1 \/ requires P r2
  | Alt r1 r2 => requires P r1 /\ requires P r2
  | Opt _ | Star _ _ => False
  | Group _ r1 => requires P r1
  end.

(** [free P s]: no character of [s] is in the class [P]. *)
Definition free (P : Z -> bool) (s : str) : Prop :=
  forallb (fun c => negb (P c)) s = true.

(** The characters the math patterns look for: an operator of [[+\-*/=]] or
    one of the listed symbols. *)
Definition math_trigger (c : Z) : bool :=
  CharClass.operator c || existsb (Z.eqb c) math_glyphs.

(** The ordered list of (category, keywords) pairs the specification speaks
    of, and its first-match rule with the default category. *)
Definition category_table : list (str * list str) :=
  [ (cat_math, math_keywords); (cat_science, science_keywords);
    (cat_programming, programming_keywords); (cat_korean, korean_keywords);
    (cat_english, english_keywords) ].

Fixpoint first_match (table : list (str * list str)) (question_lower : str) : str :=
  match table with
  | [] => cat_general
  | (category, keywords) :: rest =>
      if any_keyword_in keywords question_lower then category
      else first_match rest question_lower
  end.

(** The questions of the context, which the generator keeps as sources. *)
Definition sources_of (context : option (list ContextItem)) : list str :=
  match context with
  | Some items => map ci_question items
  | None => []
  end.

(** A provider call fails: no reply, a status other than 200, or a body
    without the answer. *)
Definition call_fails (r : reply) : bool :=
  match r with
  | NoResponse => true
  | Responded r =>
      negb (status_code r =? 200)
      || match body r with Some _ => false | None => true end
  end.

(** A request was sent to the endpoint [e]. *)
Definition attempted (e : endpoint) (t : list event) : Prop :=
  exists api_key prompt, In (Post e api_key prompt) t.

(** The template the fallback starts from: [fallback_responses.get(category,
    fallback_responses['일반'])]. *)
Definition fallback_template (category : str) : str :=
  default (fallback_responses !!! cat_general) (fallback_responses !! category).

(** The same service with no provider credential. *)
Definition without_providers (self : RAGService) : RAGService :=
  {| qa_database := qa_database self;
     openai_api_key := None;
     claude_api_key := None |}.

(** Sample data. *)
Module Sample.
(** A Unicode table that knows Hangul syllables and Greek letters. *)
Definition uni_alnum (c : Z) : bool :=
  hangul c || CharClass.in_range 0x391 0x3C9 c.

(** A case table that lowers the Greek capitals and keeps the rest. *)
Definition uni_lower (before : str) (c : Z) (after : str) : str :=
  if CharClass.in_range 0x391 0x3A9 c then [c + 32] else [c].

Definition both_keys : RAGService :=
  {| qa_database := None;
     openai_api_key := Some (u "sk-openai");
     claude_api_key := Some (u "sk-claude") |}.

Definition claude_only : RAGService :=
  {| qa_database := None;
     openai_api_key := None;
     claude_api_key := Some (u "sk-claude") |}.

Definition no_keys : RAGService := without_providers both_keys.

(** The OpenAI variable is set to the empty string. *)
Definition empty_openai_key : RAGService :=
  {| qa_database := None;
     openai_api_key := Some [];
     claude_api_key := Some (u "sk-claude") |}.

(** Every provider answers. *)
Definition always_ok : network := fun _ _ _ =>
  Responded {| status_code := 200; body := Some (u "42") |}.

(** OpenAI is unreachable, Claude answers. *)
Definition openai_down : network := fun e _ _ =>
  match e with
  | OpenAI => NoResponse
  | Claude => Responded {| status_code := 200; body := Some (u "42") |}
  end.

(** Every provider answers with a server error. *)
Definition all_down : network := fun _ _ _ =>
  Responded {| status_code := 503; body := None |}.

Definition item (q a : string) : ContextItem :=
  {| ci_question := u q; ci_answer := u a; ci_category := cat_math; ci_tags := [] |}.

Definition four_items : list ContextItem :=
  [item "q1" "a1"; item "q2" "a2"; item "q3" "a3"; item "q4" "a4"].

Definition entry (n q a : string) : QAEntry.t :=
  {| QAEntry.id := u n; QAEntry.question := u q; QAEntry.answer := u a;
     QAEntry.category := cat_math; QAEntry.created_at := u "2024-01-01";
     QAEntry.updated_at := u "2024-01-01"; QAEntry.tags := [] |}.

(** A fenced code block without a language tag. *)
Definition untagged_block : str := lines [u "```"; u "print(1)"; u "```"].

Definition db : QADatabase :=
  {| db_file := u "demo_qa.json";
     data := [ (u "1", entry "1" "x 1" "a"); (u "2", entry "2" "x 2" "b");
               (u "3", entry "3" "x 3" "c"); (u "4", entry "4" "x 4" "d") ] |}.
End Sample.

(** ** The other methods of [QADatabase] *)

(** [d.get(key)] and [d[key] = v] on a dict kept in insertion order: a new
    key goes to the end, a known key keeps its place. *)
Fixpoint dict_get (key : str) (d : list (str * QAEntry.t)) : option QAEntry.t :=
  match d with
  | [] => None
  | (k, v) :: d' => if bool_decide (k = key) then Some v else dict_get key d'
  end.

Fixpoint dict_set (key : str) (v : QAEntry.t) (d : list (str * QAEntry.t))
    : list (str * QAEntry.t) :=
  match d with
  | [] => [(key, v)]
  | (k, v') :: d' =>
      if bool_decide (k = key) then (k, v) :: d' else (k, v') :: dict_set key v d'
  end.

(** What [save_data] tries to write; a failure to write is caught there and
    changes nothing in memory. *)
Inductive file_event : Type :=
  | WriteFile (path : str) (content : list (str * QAEntry.t)).

Definition save_data (db : QADatabase) : list file_event :=
  [WriteFile (db_file db) (data db)].

(** [add_qa]; the fresh [uuid4] and the clock reading are given by the
    caller.  Returns the database, the writes and the new id. *)
Definition add_qa (db : QADatabase) (qa_id timestamp : str)
    (question answer category : str) (tags : option (list str))
    : QADatabase * list file_event * str :=
  let entry :=
    {| QAEntry.id := qa_id;
       QAEntry.question := question;
       QAEntry.answer := answer;
       QAEntry.category := category;
       QAEntry.created_at := timestamp;
       QAEntry.updated_at := timestamp;
       QAEntry.tags := default [] tags |} in          (* tags or [] *)
  let db' := {| db_file := db_file db; data := dict_set qa_id entry (data db) |} in
  (db', save_data db', qa_id).

Definition get_qa_by_id (db : QADatabase) (qa_id : str) : option QAEntry.t :=
  dict_get qa_id (data db).

(** [list(set(...))]: the order of the result is not determined. *)
Definition get_all_categories (db : QADatabase) : gset str :=
  list_to_set (map (fun kv => QAEntry.category (snd kv)) (data db)).

(** ** The statistics of [get_stats] and of the [get_qa_stats] tool *)

(** [counts[key] = counts.get(key, 0) + 1] *)
Definition count_up (key : str) (counts : gmap str nat) : gmap str nat :=
  <[key := (default 0 (counts !! key) + 1)%nat]> counts.

Definition category_counts (db : QADatabase) : gmap str nat :=
  fold_left (fun counts kv => count_up (QAEntry.category (snd kv)) counts)
    (data db) ∅.

Definition tag_counts (db : QADatabase) : gmap str nat :=
  fold_left
    (fun counts kv => fold_left (fun counts tag => count_up tag counts)
                        (QAEntry.tags (snd kv)) counts)
    (data db) ∅.

Definition total_qa (db : QADatabase) : nat := length (data db).

(** ** Further notions used in the statements *)

(** The text of the context and the prompt [generate_ai_answer] builds. *)
Definition context_text_of (context : option (list ContextItem)) : str :=
  match context with
  | Some (item :: rest) =>
      [10; 10] ++ u "관련 정보:" ++ [10] ++ context_entries 1 (item :: rest)
  | _ => []
  end.

Definition prompt_of (question category : str)
    (context : option (list ContextItem)) : str :=
  _create_category_prompt question category (context_text_of context).

(** ASCII text and its lower-case form. *)
Definition ascii (s : str) : Prop := Forall (fun c => c < 128) s.

Definition ascii_lower (c : Z) : Z :=
  if CharClass.in_range 65 90 c then c + 32 else c.

(** [starts_in p r]: every match of [r] begins with a character of [p]
    (a sufficient, syntactic condition). *)
Fixpoint starts_in (p : Z -> bool) (r : regex) : Prop :=
  match r with
  | Chr q => forall c, q c = true -> p c = true
  | Seq r1 _ => starts_in p r1
  | Alt r1 r2 => starts_in p r1 /\ starts_in p r2
  | Opt _ | Star _ _ => False
  | Group _ r1 => starts_in p r1
  end.

(** No two backticks next to each other. *)
Fixpoint no_double_backtick (s : str) : bool :=
  match s with
  | a :: (b :: _) as s' => negb ((a =? 96) && (b =? 96)) && no_double_backtick s'
  | _ => true
  end.

(** The sum of the counts of a table. *)
Definition sum_counts (counts : gmap str nat) : nat :=
  map_fold (fun _ n acc => (n + acc)%nat) 0%nat counts.

(** The entry as [search_relevant_qa] hands it on. *)
Definition context_item_of (entry : QAEntry.t) : ContextItem :=
  {| ci_question := QAEntry.question entry;
     ci_answer := QAEntry.answer entry;
     ci_category := QAEntry.category entry;
     ci_tags := QAEntry.tags entry |}.

(** ** Where the math formatter finds something to rewrite *)




(** * Properties *)

(** ** The matcher *)

Section NoMatch.
(** A class of characters one of which every match has to contain. *)
Variable P : Z -> bool.

Lemma free_cons c s : free P (c :: s) -> P c = false /\ free P s.
Proof.
  unfold free; simpl. intros H%andb_prop. destruct H as [H1 H2].
  split; [by apply negb_true_iff | done].
Qed.

Lemma run_free_none {R : Type} (r : regex) :
  forall (s : str) (cs : captures) (k : str -> captures -> option R),
    free P s ->
    requires P r \/ (forall s' cs', free P s' -> k s' cs' = None) ->
    run r s cs k = None.
Proof.
  induction r as [p | r1 IH1 r2 IH2 | r1 IH1 r2 IH2 | r1 IH1 | g r1 IH1 | i r1 IH1];
    intros s cs k Hs Hk; simpl.
  - destruct s as [| c s']; [done |].
    apply free_cons in Hs as [Hc Hs'].
    destruct (p c) eqn:Hp; [| done].
    destruct Hk as [Hreq | Hk]; [| by apply Hk].
    simpl in Hreq. rewrite (Hreq c Hp) in Hc. discriminate.
  - apply IH1; [done |].
    destruct Hk as [[H1 | H2] | Hk]; [by left | right | right];
      intros s' cs' Hs'; apply IH2; auto.
  - rewrite IH1, IH2; [done | done | | done |];
      (destruct Hk as [[H1 H2] | Hk]; [by left | by right]).
  - destruct Hk as [[] | Hk].
    rewrite IH1; [by apply Hk | done | by right].
  - destruct Hk as [[] | Hk].
    generalize (length s) as n. intros n. revert s cs Hs.
    induction n as [| n IHn]; intros s cs Hs; simpl; [by apply Hk |].
    rewrite IH1, (Hk s cs Hs); [by destruct g | done | right].
    intros s' cs' Hs'.
    destruct (length s' <? length s)%nat; [by apply IHn | done].
  - apply IH1; [done |].
    destruct Hk as [Hreq | Hk]; [by left | right].
    intros s' cs' Hs'. by apply Hk.
Qed.

Lemma match_at_free_none (r : regex) (s : str) :
  requires P r -> free P s -> match_at r s = None.
Proof. intros Hr Hs. unfold match_at. apply run_free_none; auto. Qed.

(** A text without the characters a pattern needs is left as it is. *)
Lemma re_sub_free (r : regex) (repl : captures -> str) (s : str) :
  requires P r -> free P s -> re_sub r repl s = s.
Proof.
  intros Hr. unfold re_sub. induction s as [| c s IH]; intros Hs; simpl.
  - by rewrite match_at_free_none.
  - rewrite match_at_free_none by done.
    apply free_cons in Hs as [_ Hs]. by rewrite IH.
Qed.
End NoMatch.

Section Fuel.
Context {R : Type}.

(** A continuation that always fails makes the match fail. *)
Lemma run_failing_cont (r : regex) (s : str) (cs : captures)
    (k : str -> captures -> option R) :
  (forall s' cs', k s' cs' = None) -> run r s cs k = None.
Proof.
  intros Hk. apply (run_free_none (fun _ => false)); [| by right].
  unfold free. by induction s.
Qed.

(** The matcher only looks at its continuation on inputs that are not
    longer than its own. *)
Lemma run_ext (r : regex) :
  forall (s : str) (cs : captures) (k1 k2 : str -> captures -> option R),
    (forall s' cs', (length s' <= length s)%nat -> k1 s' cs' = k2 s' cs') ->
    run r s cs k1 = run r s cs k2.
Proof.
  induction r as [p | r1 IH1 r2 IH2 | r1 IH1 r2 IH2 | r1 IH1 | g r1 IH1 | i r1 IH1];
    intros s cs k1 k2 Hk; simpl.
  - destruct s as [| c s']; [done |].
    destruct (p c); [| done]. apply Hk. simpl. lia.
  - apply IH1. intros s1 cs1 Hs1. apply IH2.
    intros s' cs' Hs'. apply Hk. lia.
  - by rewrite (IH1 s cs k1 k2), (IH2 s cs k1 k2).
  - rewrite (IH1 s cs k1 k2) by done. by rewrite Hk.
  - generalize (length s) as n. intros n. revert s cs Hk.
    induction n as [| n IHn]; intros s cs Hk; simpl; [by apply Hk |].
    rewrite (Hk s cs) by done.
    rewrite (IH1 s cs _
               (fun s' cs' =>
                  if (length s' <? length s)%nat
                  then star_loop g (run r1) k2 n s' cs' else None)); [done |].
    intros s' cs' Hs'.
    destruct (length s' <? length s)%nat; [| done].
    apply IHn. intros s'' cs'' Hs''. apply Hk. lia.
  - apply IH1. intros s' cs' Hs'. by apply Hk.
Qed.

(** The bound [length s] on the rounds of a star is never the reason a
    repetition stops: any larger bound gives the same result. *)
Lemma star_loop_fuel (g : bool) (r : regex) (k : str -> captures -> option R) :
  forall (n : nat) (s : str) (cs : captures),
    (length s <= n)%nat ->
    star_loop g (run r) k (S n) s cs = star_loop g (run r) k n s cs.
Proof.
  induction n as [| n IHn]; intros s cs Hn.
  - destruct s; [| simpl in Hn; lia]. simpl.
    rewrite run_failing_cont by done. by destruct g, (k [] cs).
  - change (star_loop g (run r) k (S (S n)) s cs) with
      (let k' := fun s' cs' =>
         if (length s' <? length s)%nat then star_loop g (run r) k (S n) s' cs'
         else None in
       if g
       then match run r s cs k' with Some x => Some x | None => k s cs end
       else match k s cs with Some x => Some x | None => run r s cs k' end).
    cbv zeta.
    rewrite (run_ext r s cs _
               (fun s' cs' =>
                  if (length s' <? length s)%nat
                  then star_loop g (run r) k n s' cs' else None)); [done |].
    intros s' cs' _.
    destruct (length s' <? length s)%nat eqn:E; [| done].
    apply Nat.ltb_lt in E. apply IHn. lia.
Qed.

Lemma star_loop_enough (g : bool) (r : regex) (k : str -> captures -> option R)
    (s : str) (cs : captures) (extra : nat) :
  star_loop g (run r) k (length s + extra) s cs
  = star_loop g (run r) k (length s) s cs.
Proof.
  induction extra as [| extra IH]; [by rewrite Nat.add_0_r |].
  rewrite Nat.add_succ_r, star_loop_fuel by lia. done.
Qed.
End Fuel.

(** ** The formatters *)

Lemma chr_trigger x c :
  math_trigger x = true -> CharClass.chr x c = true -> math_trigger c = true.
Proof. intros Hx Hc. apply Z.eqb_eq in Hc. by subst c. Qed.

Lemma operator_trigger c : CharClass.operator c = true -> math_trigger c = true.
Proof. unfold math_trigger. by intros ->. Qed.

Lemma exponent_pattern_requires ua : requires math_trigger (exponent_pattern ua).
Proof.
  cbv [exponent_pattern requires Plus]. right. left.
  intros c. by apply chr_trigger.
Qed.

Lemma math_patterns_require :
  Forall (requires math_trigger) math_patterns.
Proof.
  unfold math_patterns.
  constructor; [| constructor; [| constructor; [| constructor]]].
  - cbv [requires Plus]. right. right. left. apply operator_trigger.
  - cbv [requires Plus]. right. right. left. apply operator_trigger.
  - let g := eval vm_compute in math_glyphs in change math_glyphs with g.
    cbv [requires OneOf].
    repeat split; intros c; by apply chr_trigger.
Qed.

Lemma format_math_answer_free ua (t : str) :
  free math_trigger t -> format_math_answer ua t = t.
Proof.
  intros Ht. unfold format_math_answer.
  rewrite (re_sub_free math_trigger) by (apply exponent_pattern_requires || done).
  induction math_patterns_require as [| r rs Hr _ IH]; simpl; [done |].
  by rewrite (re_sub_free math_trigger).
Qed.

(** C7: on the literal input [x**2 + y**2 = r**2] the math formatter
    rewrites every [base**exp] into [$base^{exp}$]; in particular the output
    contains [x^{2}], and no later pass touches the rewritten text. *)
Theorem format_math_answer_exponent_literal (uni_alnum : Z -> bool) :
  re_sub (exponent_pattern uni_alnum) exponent_repl (u "x**2 + y**2 = r**2")
    = u "$x^{2}$ + $y^{2}$ = $r^{2}$"
  /\ format_math_answer uni_alnum (u "x**2 + y**2 = r**2")
    = u "$x^{2}$ + $y^{2}$ = $r^{2}$"
  /\ str_in (u "$x^{2}$") (format_math_answer uni_alnum (u "x**2 + y**2 = r**2")) = true.
Proof. repeat split; vm_compute; reflexivity. Qed.


(** A text that contains none of the operator characters [+ - * / =] and
    none of the listed symbols, with or without inline-math delimiters, is
    returned unchanged by the math formatter, so that applying the formatter
    twice is the same as applying it once. *)
Theorem format_math_answer_idempotent_without_triggers
    (uni_alnum : Z -> bool) (t : str) :
  free math_trigger t ->
  format_math_answer uni_alnum t = t
  /\ format_math_answer uni_alnum (format_math_answer uni_alnum t)
     = format_math_answer uni_alnum t.
Proof.
  intros Ht. rewrite !format_math_answer_free by done. done.
Qed.

Lemma format_math_answer_idempotent_without_triggers_witness :
  free math_trigger (u "$x^{2}$")
  /\ format_math_answer Sample.uni_alnum (u "$x^{2}$") = u "$x^{2}$"
  /\ format_math_answer Sample.uni_alnum (format_math_answer Sample.uni_alnum (u "$x^{2}$"))
     = format_math_answer Sample.uni_alnum (u "$x^{2}$").
Proof.
  split; [vm_compute; reflexivity |].
  apply (format_math_answer_idempotent_without_triggers Sample.uni_alnum (u "$x^{2}$")).
  vm_compute; reflexivity.
Defined.

(** C8 at a fenced block without a tag: the first pass gives the block the
    default language tag, the inline pass then takes the last backtick of the
    opening fence and the first of the closing fence for an inline span, and
    the result is no fenced block any more. *)
Theorem format_code_answer_breaks_fence (uni_alnum : Z -> bool) :
  re_sub (code_pattern uni_alnum) (replace_code default_language) Sample.untagged_block
    = lines [u "```python"; u "print(1)"; u "```"]
  /\ format_code_answer uni_alnum Sample.untagged_block default_language
    = lines [u "``<code>python"; u "print(1)"; u "</code>``"]
  /\ format_code_answer uni_alnum Sample.untagged_block default_language
    <> lines [u "```python"; u "print(1)"; u "```"].
Proof. repeat split; try (vm_compute; reflexivity). vm_compute. discriminate. Qed.

(** ** Substrings and case folding *)

Lemma starts_with_app (p s : str) : starts_with p (p ++ s) = true.
Proof.
  induction p as [| c p IH]; simpl; [by destruct s |].
  by rewrite Z.eqb_refl.
Qed.

Lemma str_in_starts_with (needle hay : str) :
  starts_with needle hay = true -> str_in needle hay = true.
Proof. intros H. destruct hay; simpl; rewrite H; done. Qed.

Lemma str_in_app (needle a b : str) : str_in needle (a ++ needle ++ b) = true.
Proof.
  induction a as [| c a IH]; simpl.
  - apply str_in_starts_with, starts_with_app.
  - rewrite IH. apply orb_true_r.
Qed.

Section LowerFacts.
Variable uni_lower : str -> Z -> str -> str.
Hypothesis uni_lower_hangul :
  forall before c after, hangul c = true -> uni_lower before c after = [c].

Lemma lower_cp_hangul before c after :
  hangul c = true -> lower_cp uni_lower before c after = [c].
Proof.
  intros Hc. unfold lower_cp. rewrite uni_lower_hangul by done.
  unfold hangul, CharClass.in_range in *.
  destruct (65 <=? c) eqn:E1, (c <=? 90) eqn:E2, (c <? 128) eqn:E3; simpl; try done; lia.
Qed.

Lemma lower_from_hangul before kw rest :
  forallb hangul kw = true ->
  lower_from uni_lower before (kw ++ rest)
  = kw ++ lower_from uni_lower (before ++ kw) rest.
Proof.
  revert before. induction kw as [| c kw IH]; intros before Hkw; simpl.
  - by rewrite app_nil_r.
  - simpl in Hkw. apply andb_prop in Hkw as [Hc Hkw].
    rewrite lower_cp_hangul, IH by done. simpl. by rewrite <- app_assoc.
Qed.

(** A caseless keyword that occurs in a text occurs in its lower-case form. *)
Lemma str_in_lower kw a b :
  forallb hangul kw = true ->
  str_in kw (lower uni_lower (a ++ kw ++ b)) = true.
Proof.
  intros Hkw. unfold lower. generalize (@nil Z) as before.
  induction a as [| c a IH]; intros before; simpl.
  - rewrite lower_from_hangul by done.
    rewrite <- (app_nil_l (kw ++ _)). apply str_in_app.
  - specialize (IH (before ++ [c])).
    revert IH. generalize (lower_from uni_lower (before ++ [c]) (a ++ kw ++ b)).
    generalize (lower_cp uni_lower before c (a ++ kw ++ b)).
    intros x y Hy. induction x as [| d x IHx]; simpl; [done |].
    rewrite IHx. apply orb_true_r.
Qed.
End LowerFacts.

(** ** The classifier *)

(** C5: a question that contains a math keyword anywhere, whatever the case
    of the text around it, is classified as Math; the category returned is
    the first one of the ordered table (Math, Science, Programming, Korean,
    English) with a keyword in the lower-cased question; when no keyword of
    the table occurs, it is General.  Python's [str.lower] leaves Hangul
    syllables alone, which is all the table of case mappings is asked for. *)
Theorem classify_question_category_first_match
    (uni_lower : str -> Z -> str -> str) (question : str) :
  (forall before c after, hangul c = true -> uni_lower before c after = [c]) ->
  (forall keyword a b,
     In keyword math_keywords -> question = a ++ keyword ++ b ->
     classify_question_category uni_lower question = cat_math)
  /\ classify_question_category uni_lower question
     = first_match category_table (lower uni_lower question)
  /\ ((forall category keywords,
         In (category, keywords) category_table ->
         any_keyword_in keywords (lower uni_lower question) = false) ->
      classify_question_category uni_lower question = cat_general).
Proof.
  intros Hlower. split; [| split].
  - intros keyword a b Hin ->.
    unfold classify_question_category.
    assert (any_keyword_in math_keywords (lower uni_lower (a ++ keyword ++ b)) = true)
      as ->; [| done].
    apply existsb_exists. exists keyword. split; [done |].
    apply str_in_lower; [done |].
    assert (forallb (forallb hangul) math_keywords = true) as Hall
      by (vm_compute; reflexivity).
    rewrite forallb_forall in Hall. by apply Hall.
  - unfold classify_question_category, category_table, first_match.
    repeat (destruct (any_keyword_in _ _); [done |]). done.
  - intros Hnone. unfold classify_question_category.
    rewrite (Hnone cat_math math_keywords), (Hnone cat_science science_keywords),
      (Hnone cat_programming programming_keywords), (Hnone cat_korean korean_keywords),
      (Hnone cat_english english_keywords) by (simpl; tauto).
    done.
Qed.

Lemma classify_question_category_first_match_witness :
  classify_question_category Sample.uni_lower (u "이차방정식 풀이 방법") = cat_math.
Proof.
  refine (proj1 (classify_question_category_first_match Sample.uni_lower
                   (u "이차방정식 풀이 방법") _) (u "방정식") (u "이차") (u " 풀이 방법") _ _).
  - intros before c after Hc. unfold Sample.uni_lower.
    unfold hangul, CharClass.in_range in *.
    destruct (0x391 <=? c) eqn:E1, (c <=? 0x3A9) eqn:E2; simpl; try done; lia.
  - vm_compute. tauto.
  - vm_compute. reflexivity.
Defined.

(** ** The retriever *)

(** C6: the retriever returns at most 3 context items; without a database,
    and with a database in which nothing matches, it returns the empty
    list.  The function is total: there is no input on which it fails. *)
Theorem search_relevant_qa_at_most_3
    (uni_lower : str -> Z -> str -> str) (question : str) (category : option str) :
  (forall qa_database,
     (length (search_relevant_qa uni_lower qa_database question category) <= 3)%nat)
  /\ search_relevant_qa uni_lower None question category = []
  /\ (forall db,
        search_qa uni_lower db question category = [] ->
        search_relevant_qa uni_lower (Some db) question category = [])
  /\ (forall file,
        search_relevant_qa uni_lower (Some {| db_file := file; data := [] |})
          question category = []).
Proof.
  split; [| split; [done | split; [| done]]].
  - intros [db |]; simpl; [| lia].
    rewrite length_map, length_take. lia.
  - intros db Hnone. simpl. by rewrite Hnone.
Qed.

Lemma search_relevant_qa_at_most_3_witness :
  length (search_qa Sample.uni_lower Sample.db (u "X") (Some cat_math)) = 4%nat
  /\ length (search_relevant_qa Sample.uni_lower (Some Sample.db) (u "X") (Some cat_math)) = 3%nat
  /\ search_relevant_qa Sample.uni_lower (Some Sample.db) (u "y") (Some cat_math) = [].
Proof.
  split; [vm_compute; reflexivity |]. split; [vm_compute; reflexivity |].
  apply (proj1 (proj2 (proj2 (search_relevant_qa_at_most_3 Sample.uni_lower (u "y")
                                (Some cat_math))))).
  vm_compute; reflexivity.
Defined.

(** ** The formatting stage *)

(** C9: for a category other than Math and Programming the formatting stage
    returns the generated text as it is; Math gets the math formatter and
    Programming the code formatter with the default language, and nothing
    else is applied. *)
Theorem formatted_answer_other_categories
    (uni_alnum : Z -> bool) (category answer : str) :
  category <> cat_math -> category <> cat_programming ->
  formatted_answer uni_alnum category answer = answer
  /\ formatted_answer uni_alnum cat_math answer = format_math_answer uni_alnum answer
  /\ formatted_answer uni_alnum cat_programming answer
     = format_code_answer uni_alnum answer default_language.
Proof.
  intros Hmath Hprog. unfold formatted_answer. split; [| split].
  - by rewrite !bool_decide_eq_false_2.
  - by rewrite bool_decide_eq_true_2.
  - rewrite bool_decide_eq_false_2, bool_decide_eq_true_2; done.
Qed.

Lemma formatted_answer_other_categories_witness :
  formatted_answer Sample.uni_alnum cat_science (u "E = mc**2") = u "E = mc**2".
Proof.
  apply (formatted_answer_other_categories Sample.uni_alnum cat_science (u "E = mc**2"));
    vm_compute; discriminate.
Defined.

(** ** The fallback *)

Lemma fallback_responses_lookup (category : str) :
  category <> cat_math -> category <> cat_science ->
  category <> cat_programming -> category <> cat_general ->
  fallback_responses !! category = None.
Proof.
  intros H1 H2 H3 H4. unfold fallback_responses.
  rewrite !lookup_insert_ne by done. apply lookup_empty.
Qed.

Lemma fallback_responses_general :
  fallback_responses !! cat_general
  = Some (u "질문에 대한 답변을 위해 관련 정보를 수집하고 분석해보겠습니다. 더 구체적인 내용이나 맥락을 제공해주시면 더 정확한 답변을 드릴 수 있습니다.").
Proof.
  unfold fallback_responses.
  rewrite !lookup_insert_ne by (vm_compute; discriminate).
  apply lookup_insert_eq.
Qed.

(** C10: the fallback table has entries for Math, Science, Programming and
    General only, each with a text of its own; for any other category, Korean
    and English among them, the fallback answers with the text of the General
    entry (followed by the related questions when there are sources), not
    with the text of Math, Science or Programming, and still reports the
    category it was given. *)
Theorem fallback_answer_general_template
    (question category : str) (sources : list str) :
  category <> cat_math -> category <> cat_science ->
  category <> cat_programming -> category <> cat_general ->
  dom fallback_responses = {[cat_math; cat_science; cat_programming; cat_general]}
  /\ fallback_responses !! category = None
  /\ fallback_responses !! cat_general
     = Some (u "질문에 대한 답변을 위해 관련 정보를 수집하고 분석해보겠습니다. 더 구체적인 내용이나 맥락을 제공해주시면 더 정확한 답변을 드릴 수 있습니다.")
  /\ Forall (fun specific =>
               is_Some (fallback_responses !! specific)
               /\ fallback_responses !! specific <> fallback_responses !! cat_general)
       [cat_math; cat_science; cat_programming]
  /\ AIResponse.answer (_generate_fallback_answer question category sources)
     = u "질문에 대한 답변을 위해 관련 정보를 수집하고 분석해보겠습니다. 더 구체적인 내용이나 맥락을 제공해주시면 더 정확한 답변을 드릴 수 있습니다."
       ++ match sources with
          | [] => []
          | _ :: _ =>
              [10; 10] ++ u "참고한 관련 질문들:" ++ [10]
                ++ join [10] (map (fun source => u "- " ++ source) (take 3 sources))
          end
  /\ AIResponse.answer (_generate_fallback_answer question category sources)
     = AIResponse.answer (_generate_fallback_answer question cat_general sources)
  /\ AIResponse.category (_generate_fallback_answer question category sources) = category.
Proof.
  intros H1 H2 H3 H4.
  assert (forall c,
             fallback_responses !! c = None \/ c = cat_general ->
             AIResponse.answer (_generate_fallback_answer question c sources)
             = u "질문에 대한 답변을 위해 관련 정보를 수집하고 분석해보겠습니다. 더 구체적인 내용이나 맥락을 제공해주시면 더 정확한 답변을 드릴 수 있습니다."
               ++ match sources with
                  | [] => []
                  | _ :: _ =>
                      [10; 10] ++ u "참고한 관련 질문들:" ++ [10]
                        ++ join [10] (map (fun source => u "- " ++ source) (take 3 sources))
                  end) as Hanswer.
  { intros c Hc. unfold _generate_fallback_answer. cbn [AIResponse.answer].
    assert (default (fallback_responses !!! cat_general) (fallback_responses !! c)
            = u "질문에 대한 답변을 위해 관련 정보를 수집하고 분석해보겠습니다. 더 구체적인 내용이나 맥락을 제공해주시면 더 정확한 답변을 드릴 수 있습니다.") as ->.
    { unfold lookup_total, map_lookup_total.
      destruct Hc as [-> | ->]; rewrite ?fallback_responses_general; reflexivity. }
    destruct sources; [by rewrite app_nil_r | reflexivity]. }
  split; [| split; [| split; [| split; [| split; [| split]]]]].
  - unfold fallback_responses. rewrite !dom_insert_L, dom_empty_L. set_solver.
  - by apply fallback_responses_lookup.
  - apply fallback_responses_general.
  - rewrite fallback_responses_general.
    repeat (apply Forall_cons; split;
            [split; [vm_compute; eauto | vm_compute; discriminate] |]).
    apply Forall_nil_2.
  - apply Hanswer. left. by apply fallback_responses_lookup.
  - rewrite !Hanswer; [done | by right | left; by apply fallback_responses_lookup].
  - reflexivity.
Qed.

Lemma fallback_answer_general_template_witness :
  AIResponse.answer (_generate_fallback_answer (u "맞춤법 질문") cat_korean [u "띄어쓰기"])
  = u "질문에 대한 답변을 위해 관련 정보를 수집하고 분석해보겠습니다. 더 구체적인 내용이나 맥락을 제공해주시면 더 정확한 답변을 드릴 수 있습니다."
    ++ [10; 10] ++ u "참고한 관련 질문들:" ++ [10] ++ u "- 띄어쓰기"
  /\ AIResponse.category (_generate_fallback_answer (u "맞춤법 질문") cat_korean [u "띄어쓰기"])
     = cat_korean.
Proof.
  destruct (fallback_answer_general_template (u "맞춤법 질문") cat_korean [u "띄어쓰기"])
    as (_ & _ & _ & _ & Hanswer & _ & Hcategory); try (vm_compute; discriminate).
  split; [exact Hanswer | exact Hcategory].
Defined.

(** ** The generator *)

Lemma generate_sources self net question category context :
  exists prompt,
    generate_ai_answer self net question category context
    = try_except
        (if truthy (openai_api_key self)
         then _call_openai self net prompt category (sources_of context)
         else if truthy (claude_api_key self)
              then _call_claude self net prompt category (sources_of context)
              else mret (_generate_fallback_answer question category (sources_of context)))
        (fun e => mret (_generate_fallback_answer question category (sources_of context))).
Proof.
  unfold generate_ai_answer.
  destruct context as [[| item rest] |]; simpl; eauto.
Qed.

Lemma call_openai_cases self net prompt category sources :
  let key := default [] (openai_api_key self) in
  trace (_call_openai self net prompt category sources) = [Post OpenAI key prompt]
  /\ (call_fails (net OpenAI key prompt) = true ->
      exists e, outcome (_call_openai self net prompt category sources) = inl e).
Proof.
  intros key. unfold _call_openai, post, mbind, M_bind, trace, outcome. fold key.
  destruct (net OpenAI key prompt) as [| [status [text |]]]; simpl;
    [| destruct (status =? 200); simpl ..]; (split; [done |]); eauto.
  discriminate.
Qed.

Lemma call_claude_cases self net prompt category sources :
  let key := default [] (claude_api_key self) in
  trace (_call_claude self net prompt category sources) = [Post Claude key prompt]
  /\ (call_fails (net Claude key prompt) = true ->
      exists e, outcome (_call_claude self net prompt category sources) = inl e).
Proof.
  intros key.
  unfold _call_claude, try_except, post, mbind, M_bind, trace, outcome. fold key.
  destruct (net Claude key prompt) as [| [status [text |]]]; simpl;
    [| destruct (status =? 200); simpl ..]; (split; [done |]); eauto.
  discriminate.
Qed.

(** C1, as stated, fails: both credentials are configured, the call to
    OpenAI fails and Claude would answer, yet the only request sent is the
    one to OpenAI and the answer is the template. *)
Lemma openai_failure_skips_claude :
  truthy (openai_api_key Sample.both_keys) = true
  /\ truthy (claude_api_key Sample.both_keys) = true
  /\ (forall api_key prompt, call_fails (Sample.openai_down OpenAI api_key prompt) = true)
  /\ (forall api_key prompt, call_fails (Sample.openai_down Claude api_key prompt) = false)
  /\ ~ attempted Claude
         (trace (generate_ai_answer Sample.both_keys Sample.openai_down
                   (u "1+1?") cat_math None))
  /\ outcome (generate_ai_answer Sample.both_keys Sample.openai_down
                (u "1+1?") cat_math None)
     = inr (_generate_fallback_answer (u "1+1?") cat_math []).
Proof.
  split; [done |]. split; [done |]. split; [done |]. split; [done |]. split.
  - intros (api_key & prompt & Hin). vm_compute in Hin.
    destruct Hin as [Hin | []]. discriminate.
  - vm_compute. reflexivity.
Qed.

(** C1, amended: the provider is chosen by the credentials alone.  With the
    OpenAI credential configured, the one request of [generate_ai_answer]
    goes to OpenAI, none goes to Claude whether or not its credential is
    configured, and when that call fails the answer is the template. *)
Theorem openai_configured_excludes_claude
    (self : RAGService) (net : network) (question category : str)
    (context : option (list ContextItem)) :
  truthy (openai_api_key self) = true ->
  exists api_key prompt,
    trace (generate_ai_answer self net question category context)
      = [Post OpenAI api_key prompt]
    /\ ~ attempted Claude (trace (generate_ai_answer self net question category context))
    /\ (call_fails (net OpenAI api_key prompt) = true ->
        outcome (generate_ai_answer self net question category context)
        = inr (_generate_fallback_answer question category (sources_of context))).
Proof.
  intros Hkey.
  destruct (generate_sources self net question category context) as [prompt ->].
  rewrite Hkey.
  destruct (call_openai_cases self net prompt category (sources_of context)) as [Ht Hf].
  exists (default [] (openai_api_key self)), prompt.
  unfold trace, outcome, try_except in *.
  destruct (_call_openai self net prompt category (sources_of context)) as [t [e | r]];
    simpl in *; subst t.
  - split; [done |]. split; [| done].
    intros (k & p & [Hin | []]). discriminate.
  - split; [done |]. split.
    + intros (k & p & [Hin | []]). discriminate.
    + intros Hfail. destruct (Hf Hfail) as [e He]. discriminate.
Qed.

Lemma openai_configured_excludes_claude_witness :
  exists api_key prompt,
    trace (generate_ai_answer Sample.both_keys Sample.openai_down (u "1+1?") cat_math None)
      = [Post OpenAI api_key prompt]
    /\ ~ attempted Claude
           (trace (generate_ai_answer Sample.both_keys Sample.openai_down
                     (u "1+1?") cat_math None))
    /\ (call_fails (Sample.openai_down OpenAI api_key prompt) = true ->
        outcome (generate_ai_answer Sample.both_keys Sample.openai_down
                   (u "1+1?") cat_math None)
        = inr (_generate_fallback_answer (u "1+1?") cat_math (sources_of None))).
Proof.
  apply (openai_configured_excludes_claude Sample.both_keys Sample.openai_down
           (u "1+1?") cat_math None).
  reflexivity.
Defined.

(** C3: with no provider credential configured, [generate_ai_answer] sends
    no request and returns the template answer: confidence 0.6, the
    reasoning string that says a template and no AI service was used, the
    template of the category alone when there is no context, and followed by
    the header and the first 3 context questions, one per line and verbatim,
    when there is context. *)
Theorem no_provider_template_answer
    (self : RAGService) (net : network) (question category : str)
    (context : option (list ContextItem)) :
  truthy (openai_api_key self) = false ->
  truthy (claude_api_key self) = false ->
  exists r,
    generate_ai_answer self net question category context = ([], inr r)
    /\ AIResponse.confidence r = (6 # 10)%Q
    /\ AIResponse.reasoning r = u "기본 템플릿 기반 답변 (AI 서비스 미사용)"
    /\ AIResponse.category r = category
    /\ AIResponse.sources r = sources_of context
    /\ (context = None \/ context = Some [] ->
        AIResponse.answer r = fallback_template category)
    /\ (forall items, context = Some items -> items <> [] ->
        (length (take 3 (map ci_question items)) <= 3)%nat
        /\ AIResponse.answer r
           = fallback_template category ++ related_header
             ++ join [10] (map (fun source => u "- " ++ source)
                             (take 3 (map ci_question items)))).
Proof.
  intros Ha Hb.
  destruct (generate_sources self net question category context) as [prompt ->].
  rewrite Ha, Hb. simpl.
  eexists. split; [reflexivity |]. simpl.
  split; [reflexivity |]. split; [reflexivity |]. split; [reflexivity |].
  split; [reflexivity |]. split.
  - by intros [-> | ->].
  - intros items -> Hne. split; [rewrite length_take; lia |].
    destruct items as [| item rest]; [done |]. reflexivity.
Qed.

Lemma no_provider_template_answer_witness :
  exists r,
    generate_ai_answer Sample.no_keys Sample.all_down (u "오늘 날씨 어때요?") cat_general
      (Some Sample.four_items) = ([], inr r)
    /\ AIResponse.confidence r = (6 # 10)%Q
    /\ AIResponse.answer r
       = fallback_template cat_general ++ related_header
         ++ lines [u "- q1"; u "- q2"; u "- q3"].
Proof.
  destruct (no_provider_template_answer Sample.no_keys Sample.all_down
              (u "오늘 날씨 어때요?") cat_general (Some Sample.four_items)
              eq_refl eq_refl)
    as (r & Hr & Hc & _ & _ & _ & _ & Hitems).
  exists r. split; [exact Hr |]. split; [exact Hc |].
  exact (proj2 (Hitems Sample.four_items eq_refl ltac:(discriminate))).
Defined.

(** [generate_ai_answer] never raises: every exception of a provider call is
    caught and answered with the template. *)
Lemma generate_ai_answer_returns self net question category context :
  exists r, outcome (generate_ai_answer self net question category context) = inr r.
Proof.
  destruct (generate_sources self net question category context) as [prompt ->].
  unfold outcome, try_except.
  destruct (truthy (openai_api_key self)); [| destruct (truthy (claude_api_key self))].
  - destruct (_call_openai _ _ _ _ _) as [t [e | r]]; simpl; eauto.
  - destruct (_call_claude _ _ _ _ _) as [t [e | r]]; simpl; eauto.
  - simpl; eauto.
Qed.

(** C4: when a provider credential is configured and every provider call
    fails, [generate_ai_answer] returns, without raising, the template
    answer, which is the answer it returns when no credential is
    configured. *)
Theorem failing_providers_same_as_none
    (self : RAGService) (net : network) (question category : str)
    (context : option (list ContextItem)) :
  truthy (openai_api_key self) = true \/ truthy (claude_api_key self) = true ->
  (forall e api_key prompt, call_fails (net e api_key prompt) = true) ->
  outcome (generate_ai_answer self net question category context)
    = inr (_generate_fallback_answer question category (sources_of context))
  /\ outcome (generate_ai_answer self net question category context)
     = outcome (generate_ai_answer (without_providers self) net question category context).
Proof.
  intros Hkeys Hfail.
  assert (outcome (generate_ai_answer (without_providers self) net question category context)
          = inr (_generate_fallback_answer question category (sources_of context))) as ->.
  { destruct (generate_sources (without_providers self) net question category context)
      as [prompt ->]. reflexivity. }
  cut (outcome (generate_ai_answer self net question category context)
       = inr (_generate_fallback_answer question category (sources_of context)));
    [by intros -> |].
  destruct (generate_sources self net question category context) as [prompt ->].
  unfold outcome, try_except.
  destruct (truthy (openai_api_key self)) eqn:Ha.
  - destruct (call_openai_cases self net prompt category (sources_of context)) as [_ Hf].
    destruct (Hf (Hfail _ _ _)) as [e He]. unfold outcome in He.
    destruct (_call_openai _ _ _ _ _) as [t o]. simpl in He. by subst o.
  - destruct Hkeys as [? | Hb]; [done |]. rewrite Hb.
    destruct (call_claude_cases self net prompt category (sources_of context)) as [_ Hf].
    destruct (Hf (Hfail _ _ _)) as [e He]. unfold outcome in He.
    destruct (_call_claude _ _ _ _ _) as [t o]. simpl in He. by subst o.
Qed.

Lemma failing_providers_same_as_none_witness :
  outcome (generate_ai_answer Sample.claude_only Sample.all_down (u "1+1?") cat_math
             (Some Sample.four_items))
    = inr (_generate_fallback_answer (u "1+1?") cat_math
             (sources_of (Some Sample.four_items)))
  /\ outcome (generate_ai_answer Sample.claude_only Sample.all_down (u "1+1?") cat_math
                (Some Sample.four_items))
     = outcome (generate_ai_answer (without_providers Sample.claude_only) Sample.all_down
                  (u "1+1?") cat_math (Some Sample.four_items)).
Proof.
  apply (failing_providers_same_as_none Sample.claude_only Sample.all_down (u "1+1?")
           cat_math (Some Sample.four_items)).
  - right. reflexivity.
  - intros e api_key prompt. reflexivity.
Defined.

(** * Further properties *)

(** ** Case folding of ASCII text *)

Lemma lower_from_ascii (uni_lower : str -> Z -> str -> str) (s : str) :
  ascii s -> forall before, lower_from uni_lower before s = map ascii_lower s.
Proof.
  induction 1 as [| c s Hc _ IH]; intros before; simpl; [done |].
  rewrite IH. unfold lower_cp, ascii_lower.
  destruct (CharClass.in_range 65 90 c); [done |].
  apply Z.ltb_lt in Hc. by rewrite Hc.
Qed.

Lemma lower_ascii (uni_lower : str -> Z -> str -> str) (s : str) :
  ascii s -> lower uni_lower s = map ascii_lower s.
Proof. intros Hs. by apply lower_from_ascii. Qed.

Lemma ascii_lower_ascii (s : str) : ascii s -> ascii (map ascii_lower s).
Proof.
  unfold ascii. intros Hs. apply Forall_map. eapply Forall_impl; [exact Hs |].
  intros c Hc. simpl in *. unfold ascii_lower, CharClass.in_range.
  destruct (65 <=? c) eqn:E1, (c <=? 90) eqn:E2; simpl; lia.
Qed.

Lemma str_in_head (c : Z) (p s : str) : str_in (c :: p) s = true -> In c s.
Proof.
  induction s as [| d s IH]; simpl; [done |].
  intros [H | H]%orb_prop.
  - apply andb_prop in H as [H _]. apply Z.eqb_eq in H. by left.
  - right. by apply IH.
Qed.

(** ** The classifier on text without Korean *)

Lemma any_keyword_in_ascii (keywords : list str) (s : str) :
  forallb (fun kw => match kw with c :: _ => 128 <=? c | [] => false end) keywords = true ->
  ascii s -> any_keyword_in keywords s = false.
Proof.
  intros Hkw Hs. unfold any_keyword_in.
  apply not_true_is_false. intros (kw & Hin & Hm)%existsb_exists.
  rewrite forallb_forall in Hkw. specialize (Hkw kw Hin).
  destruct kw as [| c p]; [done |].
  apply str_in_head in Hm. apply Z.leb_le in Hkw.
  unfold ascii in Hs. rewrite Forall_forall in Hs.
  apply list_elem_of_In in Hm. specialize (Hs c Hm). simpl in Hs. lia.
Qed.

Lemma classify_ascii (uni_lower : str -> Z -> str -> str) (question : str) :
  ascii question -> classify_question_category uni_lower question = cat_general.
Proof.
  intros Hq. unfold classify_question_category.
  rewrite (lower_ascii uni_lower question Hq).
  pose proof (ascii_lower_ascii question Hq) as Hl.
  rewrite (any_keyword_in_ascii math_keywords), (any_keyword_in_ascii science_keywords),
    (any_keyword_in_ascii programming_keywords), (any_keyword_in_ascii korean_keywords),
    (any_keyword_in_ascii english_keywords);
    first [reflexivity | exact Hl | vm_compute; reflexivity].
Qed.

(** X1: every keyword of the classifier is Korean, so a question written in
    ASCII only, whatever it is about, is classified General. *)
Theorem classify_ascii_question_general
    (uni_lower : str -> Z -> str -> str) (question : str) :
  ascii question ->
  classify_question_category uni_lower question = cat_general.
Proof. intros Hq. by apply classify_ascii. Qed.

Lemma classify_ascii_question_general_witness :
  classify_question_category Sample.uni_lower (u "How do I sort a list in Python?")
  = cat_general.
Proof.
  apply (classify_ascii_question_general Sample.uni_lower
           (u "How do I sort a list in Python?")).
  vm_compute. repeat constructor.
Defined.

(** X2: the keyword [문법] is in the Korean and in the English list; as the
    Korean list is looked at first, a question that contains it is never
    classified English (nor General). *)
Theorem classify_grammar_never_english
    (uni_lower : str -> Z -> str -> str) (a b : str) :
  (forall before c after, hangul c = true -> uni_lower before c after = [c]) ->
  In (classify_question_category uni_lower (a ++ u "문법" ++ b))
     [cat_math; cat_science; cat_programming; cat_korean].
Proof.
  intros Hlower. unfold classify_question_category.
  assert (any_keyword_in korean_keywords (lower uni_lower (a ++ u "문법" ++ b)) = true)
    as Hk.
  { apply existsb_exists. exists (u "문법"). split; [vm_compute; tauto |].
    apply str_in_lower; [done | vm_compute; reflexivity]. }
  rewrite Hk.
  destruct (any_keyword_in math_keywords _); [by left |].
  destruct (any_keyword_in science_keywords _); [by right; left |].
  destruct (any_keyword_in programming_keywords _); [by right; right; left |].
  by right; right; right; left.
Qed.

Lemma classify_grammar_never_english_witness :
  In (classify_question_category Sample.uni_lower (u "English " ++ u "문법" ++ u " help"))
     [cat_math; cat_science; cat_programming; cat_korean].
Proof.
  apply (classify_grammar_never_english Sample.uni_lower (u "English ") (u " help")).
  intros before c after Hc. unfold Sample.uni_lower.
  unfold hangul, CharClass.in_range in *.
  destruct (0x391 <=? c) eqn:E1, (c <=? 0x3A9) eqn:E2; simpl; try done; lia.
Defined.

(** ** The search of the database *)

Lemma str_in_nil (s : str) : str_in [] s = true.
Proof. by destruct s. Qed.

Lemma str_in_refl (s : str) : str_in s s = true.
Proof.
  apply str_in_starts_with. rewrite <- (app_nil_r s) at 2. apply starts_with_app.
Qed.

Lemma filter_sublist {A : Type} (f : A -> bool) (l : list A) :
  sublist (List.filter f l) l.
Proof.
  induction l as [| x l IH]; simpl; [constructor |].
  destruct (f x); by constructor.
Qed.

Lemma filter_sublist_impl {A : Type} (f g : A -> bool) (l : list A) :
  (forall x, f x = true -> g x = true) ->
  sublist (List.filter f l) (List.filter g l).
Proof.
  intros Hfg. induction l as [| x l IH]; simpl; [constructor |].
  destruct (f x) eqn:Hf.
  - rewrite (Hfg x Hf). by constructor.
  - destruct (g x); [by constructor | done].
Qed.

Lemma map_sublist {A B : Type} (f : A -> B) (l1 l2 : list A) :
  sublist l1 l2 -> sublist (map f l1) (map f l2).
Proof. induction 1; simpl; by constructor. Qed.

(** X3: what [search_qa] returns is a selection of the stored entries in
    their stored order; each one has the lower-cased query in its lower-cased
    question, answer or one of its tags, and, when a category is asked for,
    has that category up to case. *)
Theorem search_qa_selects_matching
    (uni_lower : str -> Z -> str -> str) (db : QADatabase)
    (query : str) (category : option str) :
  sublist (search_qa uni_lower db query category) (map snd (data db))
  /\ forall entry, In entry (search_qa uni_lower db query category) ->
       (str_in (lower uni_lower query) (lower uni_lower (QAEntry.question entry)) = true
        \/ str_in (lower uni_lower query) (lower uni_lower (QAEntry.answer entry)) = true
        \/ exists tag, In tag (QAEntry.tags entry)
             /\ str_in (lower uni_lower query) (lower uni_lower tag) = true)
       /\ forall c, category = Some c ->
            lower uni_lower (QAEntry.category entry) = lower uni_lower c.
Proof.
  split; [apply filter_sublist |].
  intros entry Hin. unfold search_qa in Hin.
  apply filter_In in Hin as [_ Hm]. unfold entry_matches in Hm.
  apply andb_prop in Hm as [Htext Hcat]. split.
  - apply orb_prop in Htext as [Htext | Htag].
    + apply orb_prop in Htext as [Hq | Ha]; auto.
    + right. right. apply existsb_exists in Htag. done.
  - intros c ->. by apply bool_decide_eq_true in Hcat.
Qed.

(** X4: asking for a category only removes results: the results for a
    category are a selection, in order, of the results for no category. *)
Theorem search_qa_category_narrows
    (uni_lower : str -> Z -> str -> str) (db : QADatabase) (query c : str) :
  sublist (search_qa uni_lower db query (Some c)) (search_qa uni_lower db query None).
Proof.
  unfold search_qa. apply filter_sublist_impl.
  intros entry Hm. unfold entry_matches in *.
  apply andb_prop in Hm as [-> _]. done.
Qed.

(** X5: the empty query is contained in every text, so [search_qa] with the
    empty query and no category returns the whole database. *)
Theorem search_qa_empty_query_all
    (uni_lower : str -> Z -> str -> str) (db : QADatabase) :
  search_qa uni_lower db [] None = map snd (data db).
Proof.
  unfold search_qa. induction (map snd (data db)) as [| e l IH]; simpl; [done |].
  unfold entry_matches at 1. unfold lower at 1. simpl.
  rewrite str_in_nil. simpl. by f_equal.
Qed.

(** X6: the search does not depend on the letter case of an ASCII query: two
    ASCII queries that are equal up to case give the same results. *)
Theorem search_qa_ascii_case_insensitive
    (uni_lower : str -> Z -> str -> str) (db : QADatabase)
    (query1 query2 : str) (category : option str) :
  ascii query1 -> ascii query2 ->
  map ascii_lower query1 = map ascii_lower query2 ->
  search_qa uni_lower db query1 category = search_qa uni_lower db query2 category.
Proof.
  intros H1 H2 Heq. unfold search_qa.
  by rewrite (lower_ascii uni_lower query1 H1), (lower_ascii uni_lower query2 H2), Heq.
Qed.

Lemma search_qa_ascii_case_insensitive_witness :
  search_qa Sample.uni_lower Sample.db (u "X 1") (Some cat_math)
  = search_qa Sample.uni_lower Sample.db (u "x 1") (Some cat_math).
Proof.
  apply (search_qa_ascii_case_insensitive Sample.uni_lower Sample.db
           (u "X 1") (u "x 1") (Some cat_math)).
  - vm_compute. repeat constructor.
  - vm_compute. repeat constructor.
  - vm_compute. reflexivity.
Defined.

(** X7: every context item the retriever returns is the copy of a stored
    entry that matches the query, and the items come in the stored order. *)
Theorem search_relevant_qa_from_store
    (uni_lower : str -> Z -> str -> str) (db : QADatabase)
    (question : str) (category : option str) :
  search_relevant_qa uni_lower (Some db) question category
    = map context_item_of (take 3 (search_qa uni_lower db question category))
  /\ sublist (search_relevant_qa uni_lower (Some db) question category)
       (map (fun kv => context_item_of (snd kv)) (data db))
  /\ forall item,
       In item (search_relevant_qa uni_lower (Some db) question category) ->
       exists key entry,
         In (key, entry) (data db) /\ item = context_item_of entry
         /\ entry_matches uni_lower (lower uni_lower question) category entry = true.
Proof.
  split; [reflexivity |]. split.
  - simpl. rewrite <- (map_map snd context_item_of).
    apply map_sublist. etrans; [apply sublist_take | apply filter_sublist].
  - intros item Hin. simpl in Hin. apply in_map_iff in Hin as (entry & <- & Hin).
    apply list_elem_of_In, (subseteq_take 3), list_elem_of_In in Hin.
    unfold search_qa in Hin. apply filter_In in Hin as [Hin Hm].
    apply in_map_iff in Hin as ([key entry'] & <- & Hin).
    by exists key, entry'.
Qed.

(** ** Adding to the database and reading back *)

Lemma dict_get_set_eq key v d : dict_get key (dict_set key v d) = Some v.
Proof.
  induction d as [| [k v'] d IH]; simpl.
  - by rewrite bool_decide_eq_true_2.
  - destruct (bool_decide (k = key)) eqn:E; simpl; rewrite E; done.
Qed.

Lemma dict_get_set_ne key key' v d :
  key <> key' -> dict_get key' (dict_set key v d) = dict_get key' d.
Proof.
  intros Hne. induction d as [| [k v'] d IH]; simpl.
  - by rewrite bool_decide_eq_false_2.
  - destruct (bool_decide (k = key)) eqn:E; simpl.
    + apply bool_decide_eq_true in E as ->. by rewrite !bool_decide_eq_false_2.
    + by rewrite IH.
Qed.

Lemma dict_get_None key d : dict_get key d = None <-> ~ In key (map fst d).
Proof.
  induction d as [| [k v] d IH]; simpl; [tauto |].
  destruct (bool_decide (k = key)) eqn:E.
  - apply bool_decide_eq_true in E. split; [done | tauto].
  - apply bool_decide_eq_false in E. rewrite IH. tauto.
Qed.

Lemma dict_set_values_fresh key v d :
  dict_get key d = None -> dict_set key v d = d ++ [(key, v)].
Proof.
  induction d as [| [k v'] d IH]; simpl; [done |].
  destruct (bool_decide (k = key)); [done |]. intros H. by rewrite IH.
Qed.

(** X8: [add_qa] followed by [get_qa_by_id] with the returned id gives the
    entry that was added, with the given texts, both time stamps equal and
    no tags when none were given; every other id reads as before. *)
Theorem add_qa_then_get
    (db : QADatabase) (qa_id timestamp question answer category : str)
    (tags : option (list str)) (other : str) :
  (add_qa db qa_id timestamp question answer category tags).2 = qa_id
  /\ get_qa_by_id (add_qa db qa_id timestamp question answer category tags).1.1 qa_id
     = Some {| QAEntry.id := qa_id;
               QAEntry.question := question;
               QAEntry.answer := answer;
               QAEntry.category := category;
               QAEntry.created_at := timestamp;
               QAEntry.updated_at := timestamp;
               QAEntry.tags := match tags with Some ts => ts | None => [] end |}
  /\ (other <> qa_id ->
      get_qa_by_id (add_qa db qa_id timestamp question answer category tags).1.1 other
      = get_qa_by_id db other).
Proof.
  split; [done |]. split.
  - unfold get_qa_by_id, add_qa. simpl. rewrite dict_get_set_eq. by destruct tags.
  - intros Hne. unfold get_qa_by_id, add_qa. simpl. by apply dict_get_set_ne.
Qed.

Lemma add_qa_then_get_witness :
  get_qa_by_id (add_qa Sample.db (u "5") (u "2024-02-02") (u "q") (u "a")
                  (u "general") None).1.1 (u "1")
  = get_qa_by_id Sample.db (u "1").
Proof.
  apply (add_qa_then_get Sample.db (u "5") (u "2024-02-02") (u "q") (u "a")
           (u "general") None (u "1")).
  vm_compute. discriminate.
Defined.

(** X9: with a fresh id, [add_qa] puts the new entry after the stored ones
    and leaves those as they are, so the database grows by one; the ids stay
    distinct; and the write that follows carries the whole new content. *)
Theorem add_qa_fresh_appends
    (db : QADatabase) (qa_id timestamp question answer category : str)
    (tags : option (list str)) :
  get_qa_by_id db qa_id = None ->
  NoDup (map fst (data db)) ->
  exists entry,
    data (add_qa db qa_id timestamp question answer category tags).1.1
      = data db ++ [(qa_id, entry)]
    /\ total_qa (add_qa db qa_id timestamp question answer category tags).1.1
       = S (total_qa db)
    /\ NoDup (map fst (data (add_qa db qa_id timestamp question answer category tags).1.1))
    /\ (add_qa db qa_id timestamp question answer category tags).1.2
       = [WriteFile (db_file db) (data db ++ [(qa_id, entry)])].
Proof.
  intros Hfresh Hnodup. unfold get_qa_by_id in Hfresh.
  eexists. unfold add_qa, total_qa, save_data. simpl.
  rewrite (dict_set_values_fresh _ _ _ Hfresh).
  split; [reflexivity |]. split; [rewrite length_app; simpl; lia |].
  split; [| reflexivity].
  rewrite map_app. simpl. apply NoDup_app. split; [done |]. split.
  - intros k Hk Hk'. apply list_elem_of_In in Hk, Hk'. destruct Hk' as [<- | []].
    by apply dict_get_None in Hfresh.
  - apply NoDup_singleton.
Qed.

Lemma add_qa_fresh_appends_witness :
  exists entry,
    data (add_qa Sample.db (u "5") (u "2024-02-02") (u "q") (u "a")
            (u "general") None).1.1
      = data Sample.db ++ [(u "5", entry)]
    /\ total_qa (add_qa Sample.db (u "5") (u "2024-02-02") (u "q") (u "a")
                   (u "general") None).1.1 = S (total_qa Sample.db)
    /\ NoDup (map fst (data (add_qa Sample.db (u "5") (u "2024-02-02") (u "q") (u "a")
                               (u "general") None).1.1))
    /\ (add_qa Sample.db (u "5") (u "2024-02-02") (u "q") (u "a")
          (u "general") None).1.2
       = [WriteFile (db_file Sample.db) (data Sample.db ++ [(u "5", entry)])].
Proof.
  apply (add_qa_fresh_appends Sample.db (u "5") (u "2024-02-02") (u "q") (u "a")
           (u "general") None).
  - vm_compute. reflexivity.
  - vm_compute. repeat (constructor; [rewrite list_elem_of_In; simpl; intuition discriminate |]).
    constructor.
Defined.

(** X10: an entry added with a fresh id is found by a search for its own
    question, with no category and with its own category, whatever the case
    tables are. *)
Theorem add_qa_then_search
    (uni_lower : str -> Z -> str -> str)
    (db : QADatabase) (qa_id timestamp question answer category : str)
    (tags : option (list str)) :
  get_qa_by_id db qa_id = None ->
  exists entry,
    get_qa_by_id (add_qa db qa_id timestamp question answer category tags).1.1 qa_id
      = Some entry
    /\ In entry (search_qa uni_lower
                   (add_qa db qa_id timestamp question answer category tags).1.1
                   question None)
    /\ In entry (search_qa uni_lower
                   (add_qa db qa_id timestamp question answer category tags).1.1
                   question (Some category)).
Proof.
  intros Hfresh. unfold get_qa_by_id in *.
  eexists. split; [unfold add_qa; simpl; apply dict_get_set_eq |].
  unfold search_qa, add_qa. simpl.
  rewrite (dict_set_values_fresh _ _ _ Hfresh), map_app. simpl.
  split; apply filter_In; (split; [apply in_or_app; right; by left |]);
    unfold entry_matches; simpl; rewrite str_in_refl; simpl; [done |].
  by apply bool_decide_eq_true.
Qed.

Lemma add_qa_then_search_witness :
  exists entry,
    get_qa_by_id (add_qa Sample.db (u "5") (u "2024-02-02") (u "What is π?") (u "a")
                    (u "Math") None).1.1 (u "5") = Some entry
    /\ In entry (search_qa Sample.uni_lower
                   (add_qa Sample.db (u "5") (u "2024-02-02") (u "What is π?") (u "a")
                      (u "Math") None).1.1 (u "What is π?") None)
    /\ In entry (search_qa Sample.uni_lower
                   (add_qa Sample.db (u "5") (u "2024-02-02") (u "What is π?") (u "a")
                      (u "Math") None).1.1 (u "What is π?") (Some (u "Math"))).
Proof.
  apply (add_qa_then_search Sample.uni_lower Sample.db (u "5") (u "2024-02-02")
           (u "What is π?") (u "a") (u "Math") None).
  vm_compute. reflexivity.
Defined.

(** ** The statistics *)

Lemma sum_counts_insert (counts : gmap str nat) (key : str) (n : nat) :
  (sum_counts (<[key := n]> counts) + default 0 (counts !! key) = n + sum_counts counts)%nat.
Proof.
  unfold sum_counts.
  destruct (counts !! key) as [old |] eqn:E; simpl.
  - rewrite <- (insert_delete_eq counts key n).
    rewrite <- (insert_delete_id counts key old E) at 2.
    rewrite !map_fold_insert_L; [lia | intros; lia | apply lookup_delete_eq
                                | intros; lia | apply lookup_delete_eq].
  - rewrite map_fold_insert_L; [lia | intros; lia | done].
Qed.

Lemma count_up_lookup (key k : str) (counts : gmap str nat) :
  default 0%nat (count_up key counts !! k)
  = (default 0 (counts !! k) + if bool_decide (key = k) then 1 else 0)%nat.
Proof.
  unfold count_up. destruct (bool_decide (key = k)) eqn:E.
  - apply bool_decide_eq_true in E as ->. by rewrite lookup_insert_eq.
  - apply bool_decide_eq_false in E. rewrite lookup_insert_ne by done. simpl. lia.
Qed.

Lemma count_up_sum (key : str) (counts : gmap str nat) :
  sum_counts (count_up key counts) = S (sum_counts counts).
Proof.
  unfold count_up.
  pose proof (sum_counts_insert counts key (default 0 (counts !! key) + 1)%nat). lia.
Qed.

Lemma count_up_dom (key : str) (counts : gmap str nat) :
  dom (count_up key counts) = {[key]} ∪ dom counts.
Proof. unfold count_up. apply dom_insert_L. Qed.

Section Tally.
Context {A : Type} (f : A -> str).

Lemma tally_lookup (l : list A) (counts : gmap str nat) (k : str) :
  default 0%nat (fold_left (fun counts x => count_up (f x) counts) l counts !! k)
  = (default 0 (counts !! k)
     + length (List.filter (fun x => bool_decide (f x = k)) l))%nat.
Proof.
  revert counts. induction l as [| x l IH]; intros counts; simpl; [lia |].
  rewrite IH, count_up_lookup. destruct (bool_decide (f x = k)); simpl; lia.
Qed.

Lemma tally_sum (l : list A) (counts : gmap str nat) :
  sum_counts (fold_left (fun counts x => count_up (f x) counts) l counts)
  = (sum_counts counts + length l)%nat.
Proof.
  revert counts. induction l as [| x l IH]; intros counts; simpl; [lia |].
  rewrite IH, count_up_sum. lia.
Qed.

Lemma tally_dom (l : list A) (counts : gmap str nat) :
  dom (fold_left (fun counts x => count_up (f x) counts) l counts)
  = dom counts ∪ list_to_set (map f l).
Proof.
  revert counts. induction l as [| x l IH]; intros counts; simpl.
  - by rewrite union_empty_r_L.
  - rewrite IH, count_up_dom.
    by rewrite (union_comm_L {[f x]}), <- union_assoc_L.
Qed.
End Tally.

(** X11: in the statistics the count of a category is the number of stored
    entries with exactly that category, the counts add up to the total number
    of entries, and the categories counted are those of [get_all_categories],
    so the number of categories reported is the number of rows of the
    breakdown. *)
Theorem category_counts_consistent (db : QADatabase) :
  (forall c,
     default 0%nat (category_counts db !! c)
     = length (List.filter (fun kv => bool_decide (QAEntry.category (snd kv) = c))
                 (data db)))
  /\ sum_counts (category_counts db) = total_qa db
  /\ dom (category_counts db) = get_all_categories db
  /\ size (category_counts db) = size (get_all_categories db).
Proof.
  unfold category_counts, total_qa, get_all_categories.
  split; [| split; [| split]].
  - intros c. by rewrite tally_lookup, lookup_empty.
  - rewrite tally_sum. unfold sum_counts. by rewrite map_fold_empty.
  - by rewrite tally_dom, dom_empty_L, union_empty_l_L.
  - by rewrite <- size_dom, tally_dom, dom_empty_L, union_empty_l_L.
Qed.

(** X12: the count of a tag in the statistics is the number of times it is
    attached to an entry, over all entries; a tag repeated on one entry is
    counted each time. *)
Theorem tag_counts_occurrences (db : QADatabase) (tag : str) :
  default 0%nat (tag_counts db !! tag)
  = length (List.filter (fun t => bool_decide (t = tag))
              (concat (map (fun kv => QAEntry.tags (snd kv)) (data db)))).
Proof.
  unfold tag_counts.
  assert (forall l counts,
            default 0%nat
              (fold_left
                 (fun counts (kv : str * QAEntry.t) =>
                    fold_left (fun counts tag => count_up tag counts)
                      (QAEntry.tags (snd kv)) counts) l counts !! tag)
            = (default 0 (counts !! tag)
               + length (List.filter (fun t => bool_decide (t = tag))
                           (concat (map (fun kv => QAEntry.tags (snd kv)) l))))%nat) as H.
  { induction l as [| kv l IH]; intros counts; simpl; [lia |].
    rewrite IH, (tally_lookup (fun t => t)), List.filter_app, length_app. lia. }
  by rewrite H, lookup_empty.
Qed.

(** ** The generator, path by path *)

Lemma generate_unfold self net question category context :
  generate_ai_answer self net question category context
  = try_except
      (if truthy (openai_api_key self)
       then _call_openai self net (prompt_of question category context) category
              (sources_of context)
       else if truthy (claude_api_key self)
            then _call_claude self net (prompt_of question category context) category
                   (sources_of context)
            else mret (_generate_fallback_answer question category (sources_of context)))
      (fun e => mret (_generate_fallback_answer question category (sources_of context))).
Proof.
  unfold generate_ai_answer, prompt_of, context_text_of, sources_of.
  by destruct context as [[| item rest] |].
Qed.

(** X13: with the OpenAI credential configured and a reply of status 200
    that carries an answer, [generate_ai_answer] sends that one request, with
    the credential and the prompt built from the question, the category and
    the context, and returns the reply's text unchanged with confidence 0.9,
    the category given, all context questions as sources and the reasoning
    that names OpenAI. *)
Theorem generate_openai_success
    (self : RAGService) (net : network) (question category : str)
    (context : option (list ContextItem)) (text : str) :
  truthy (openai_api_key self) = true ->
  net OpenAI (default [] (openai_api_key self)) (prompt_of question category context)
    = Responded {| status_code := 200; body := Some text |} ->
  generate_ai_answer self net question category context
  = ([Post OpenAI (default [] (openai_api_key self))
        (prompt_of question category context)],
     inr {| AIResponse.answer := text;
            AIResponse.confidence := (9 # 10)%Q;
            AIResponse.category := category;
            AIResponse.sources := sources_of context;
            AIResponse.reasoning := u "OpenAI GPT-4를 사용한 답변" |}).
Proof.
  intros Hkey Hreply. rewrite generate_unfold, Hkey.
  unfold _call_openai, post, mbind, M_bind, try_except. rewrite Hreply. reflexivity.
Qed.

Lemma generate_openai_success_witness :
  generate_ai_answer Sample.both_keys Sample.always_ok (u "1+1?") cat_math None
  = ([Post OpenAI (u "sk-openai") (prompt_of (u "1+1?") cat_math None)],
     inr {| AIResponse.answer := u "42";
            AIResponse.confidence := (9 # 10)%Q;
            AIResponse.category := cat_math;
            AIResponse.sources := [];
            AIResponse.reasoning := u "OpenAI GPT-4를 사용한 답변" |}).
Proof.
  apply (generate_openai_success Sample.both_keys Sample.always_ok (u "1+1?") cat_math
           None (u "42")); reflexivity.
Defined.

(** X14: when the OpenAI credential is missing or empty and the Claude
    credential is configured, the one request goes to Claude; a reply of
    status 200 with an answer is returned unchanged with confidence 0.9 and
    the reasoning that names Claude, and a failed call gives the template
    answer. *)
Theorem generate_claude_path
    (self : RAGService) (net : network) (question category : str)
    (context : option (list ContextItem)) :
  truthy (openai_api_key self) = false ->
  truthy (claude_api_key self) = true ->
  trace (generate_ai_answer self net question category context)
    = [Post Claude (default [] (claude_api_key self))
         (prompt_of question category context)]
  /\ (forall text,
        net Claude (default [] (claude_api_key self)) (prompt_of question category context)
          = Responded {| status_code := 200; body := Some text |} ->
        outcome (generate_ai_answer self net question category context)
        = inr {| AIResponse.answer := text;
                 AIResponse.confidence := (9 # 10)%Q;
                 AIResponse.category := category;
                 AIResponse.sources := sources_of context;
                 AIResponse.reasoning := u "Claude AI를 사용한 답변" |})
  /\ (call_fails (net Claude (default [] (claude_api_key self))
                    (prompt_of question category context)) = true ->
      outcome (generate_ai_answer self net question category context)
      = inr (_generate_fallback_answer question category (sources_of context))).
Proof.
  intros Ha Hb. rewrite generate_unfold, Ha, Hb.
  unfold _call_claude, post, mbind, M_bind, try_except, trace, outcome, call_fails.
  destruct (net Claude _ _) as [| [status [text |]]]; simpl.
  - split; [reflexivity |]. split; [intros t Heq; discriminate Heq | reflexivity].
  - destruct (status =? 200) eqn:E; simpl.
    + split; [reflexivity |]. split; [| intros Hf; discriminate Hf].
      intros t Heq. injection Heq as _ ->. reflexivity.
    + split; [reflexivity |]. split; [| reflexivity].
      intros t Heq. injection Heq as -> _. discriminate E.
  - split; [by destruct (status =? 200) |].
    split; [intros t Heq; discriminate Heq |].
    intros _. by destruct (status =? 200).
Qed.

Lemma generate_claude_path_witness :
  trace (generate_ai_answer Sample.empty_openai_key Sample.always_ok (u "1+1?") cat_math None)
  = [Post Claude (u "sk-claude") (prompt_of (u "1+1?") cat_math None)].
Proof.
  apply (generate_claude_path Sample.empty_openai_key Sample.always_ok (u "1+1?")
           cat_math None); reflexivity.
Defined.

(** X15: whatever the credentials and the network do, [generate_ai_answer]
    sends at most one request, and none exactly when no credential is
    configured; it returns a response, never an exception; the response has
    the category given and all context questions as sources, and its
    confidence is 0.6 or 0.9. *)
Theorem generate_ai_answer_invariants
    (self : RAGService) (net : network) (question category : str)
    (context : option (list ContextItem)) :
  (length (trace (generate_ai_answer self net question category context)) <= 1)%nat
  /\ (trace (generate_ai_answer self net question category context) = []
      <-> truthy (openai_api_key self) = false /\ truthy (claude_api_key self) = false)
  /\ exists r,
       outcome (generate_ai_answer self net question category context) = inr r
       /\ AIResponse.category r = category
       /\ AIResponse.sources r = sources_of context
       /\ (AIResponse.confidence r = (6 # 10)%Q \/ AIResponse.confidence r = (9 # 10)%Q).
Proof.
  rewrite generate_unfold.
  unfold _call_openai, _call_claude, post, mbind, M_bind, try_except, trace, outcome,
    raise, mret, M_ret.
  assert (Hfb : exists r,
             @inr exn _ (_generate_fallback_answer question category (sources_of context))
             = inr r
             /\ AIResponse.category r = category
             /\ AIResponse.sources r = sources_of context
             /\ (AIResponse.confidence r = (6 # 10)%Q
                 \/ AIResponse.confidence r = (9 # 10)%Q)).
  { eexists. split; [reflexivity |]. split; [reflexivity |].
    split; [reflexivity |]. left. reflexivity. }
  assert (Hok : forall text reasoning, exists r,
             @inr exn _ {| AIResponse.answer := text;
                           AIResponse.confidence := 0.9;
                           AIResponse.category := category;
                           AIResponse.sources := sources_of context;
                           AIResponse.reasoning := reasoning |}
             = inr r
             /\ AIResponse.category r = category
             /\ AIResponse.sources r = sources_of context
             /\ (AIResponse.confidence r = (6 # 10)%Q
                 \/ AIResponse.confidence r = (9 # 10)%Q)).
  { intros text reasoning. eexists. split; [reflexivity |]. split; [reflexivity |].
    split; [reflexivity |]. right. reflexivity. }
  assert (Hsent : forall e : event,
             ([e] = [] <-> true = false /\ truthy (claude_api_key self) = false)
             /\ ([e] = [] <-> false = false /\ true = false)).
  { intros e. split; (split; [discriminate | intros [? ?]; discriminate]). }
  destruct (truthy (openai_api_key self)); [| destruct (truthy (claude_api_key self))].
  - destruct (net OpenAI _ _) as [| [status [text |]]]; cbn [status_code body];
      [| destruct (status =? 200) ..]; cbn [fst snd app length];
      (split; [lia |]); (split; [apply Hsent |]).
    + exact Hfb.
    + apply Hok.
    + exact Hfb.
    + exact Hfb.
    + exact Hfb.
  - destruct (net Claude _ _) as [| [status [text |]]]; cbn [status_code body];
      [| destruct (status =? 200) ..]; cbn [fst snd app length];
      (split; [lia |]); (split; [apply Hsent |]).
    + exact Hfb.
    + apply Hok.
    + exact Hfb.
    + exact Hfb.
    + exact Hfb.
  - cbn [fst snd app length]. split; [lia |]. split; [by split |]. exact Hfb.
Qed.

(** X16: the template answer shows the first three sources only, so it is
    the same for a list of sources and for its first three; the response
    still carries all of them. *)
Theorem fallback_answer_first_three
    (question category : str) (sources : list str) :
  AIResponse.answer (_generate_fallback_answer question category sources)
    = AIResponse.answer (_generate_fallback_answer question category (take 3 sources))
  /\ AIResponse.sources (_generate_fallback_answer question category sources) = sources.
Proof.
  split; [| done]. unfold _generate_fallback_answer. simpl.
  by destruct sources as [| s1 [| s2 [| s3 rest]]].
Qed.

(** ** The prompt *)

Lemma str_in_infix (needle hay a b : str) :
  hay = a ++ needle ++ b -> str_in needle hay = true.
Proof. intros ->. apply str_in_app. Qed.

Lemma context_entries_mentions (items : list ContextItem) (item : ContextItem) :
  In item items ->
  forall i, exists a b c,
    context_entries i items = a ++ ci_question item ++ b ++ ci_answer item ++ c.
Proof.
  induction items as [| x items IH]; [done |].
  intros [-> | Hin] i; simpl.
  - exists (decimal i ++ u ". Q: "), ([10] ++ u "   A: "),
      ([10] ++ context_entries (S i) items).
    by rewrite <- !app_assoc.
  - destruct (IH Hin (S i)) as (a & b & c & ->).
    exists (decimal i ++ u ". Q: " ++ ci_question x ++ [10] ++ u "   A: "
              ++ ci_answer x ++ [10] ++ a), b, c.
    by rewrite <- !app_assoc.
Qed.

Lemma lines_cons (x y : str) (l : list str) :
  lines (x :: y :: l) = x ++ [10] ++ lines (y :: l).
Proof. reflexivity. Qed.

Lemma base_prompt_shape (a q b c ctx d g : str) :
  lines [a ++ q; b ++ c; []; ctx; []; d] ++ g
  = a ++ q ++ [10] ++ b ++ c ++ [10; 10] ++ ctx ++ [10; 10] ++ d ++ g.
Proof. cbn [lines join]. by rewrite <- !app_assoc. Qed.

Lemma create_category_prompt_shape (question category context : str) :
  exists guidelines,
    _create_category_prompt question category context
    = u "질문: " ++ question ++ [10] ++ u "카테고리: " ++ category ++ [10; 10]
        ++ context ++ [10; 10]
        ++ u "위 정보를 참고하여 질문에 대한 전문적이고 정확한 답변을 한국어로 작성해주세요."
        ++ guidelines
    /\ (category <> cat_math -> category <> cat_science ->
        category <> cat_programming -> guidelines = []).
Proof.
  unfold _create_category_prompt.
  destruct (bool_decide (category = cat_math)) eqn:E1;
    [| destruct (bool_decide (category = cat_science)) eqn:E2;
       [| destruct (bool_decide (category = cat_programming)) eqn:E3]].
  - eexists. split; [rewrite lines_cons; apply base_prompt_shape |].
    intros H _ _. by apply bool_decide_eq_true in E1.
  - eexists. split; [rewrite lines_cons; apply base_prompt_shape |].
    intros _ H _. by apply bool_decide_eq_true in E2.
  - eexists. split; [rewrite lines_cons; apply base_prompt_shape |].
    intros _ _ H. by apply bool_decide_eq_true in E3.
  - exists []. split; [| done].
    rewrite <- (app_nil_r (lines _)). apply base_prompt_shape.
Qed.

Lemma prompt_prefix (a q b c rest : str) :
  a ++ q ++ [10] ++ b ++ c ++ [10; 10] ++ rest
  = (a ++ q ++ [10] ++ b ++ c ++ [10]) ++ [10] ++ rest.
Proof. by rewrite <- !app_assoc. Qed.

Lemma prompt_infix_question (a q b c h x item y rest : str) :
  a ++ q ++ [10] ++ b ++ c ++ [10; 10]
    ++ ([10; 10] ++ h ++ [10] ++ x ++ item ++ y) ++ rest
  = (a ++ q ++ [10] ++ b ++ c ++ [10; 10] ++ [10; 10] ++ h ++ [10] ++ x)
      ++ item ++ (y ++ rest).
Proof. by rewrite <- !app_assoc. Qed.

(** X17: the prompt begins with the question and the category, each on its
    line under its Korean label; it contains the question and the answer of
    every context item; and for a category other than Math, Science and
    Programming it ends with the request to answer in Korean, with no
    guidelines after it. *)
Theorem prompt_of_contents
    (question category : str) (context : option (list ContextItem)) :
  starts_with (u "질문: " ++ question ++ [10] ++ u "카테고리: " ++ category ++ [10])
    (prompt_of question category context) = true
  /\ (forall items item,
        context = Some items -> In item items ->
        str_in (ci_question item) (prompt_of question category context) = true
        /\ str_in (ci_answer item) (prompt_of question category context) = true)
  /\ (category <> cat_math -> category <> cat_science ->
      category <> cat_programming ->
      prompt_of question category context
      = u "질문: " ++ question ++ [10] ++ u "카테고리: " ++ category ++ [10; 10]
          ++ context_text_of context ++ [10; 10]
          ++ u "위 정보를 참고하여 질문에 대한 전문적이고 정확한 답변을 한국어로 작성해주세요.").
Proof.
  unfold prompt_of.
  destruct (create_category_prompt_shape question category (context_text_of context))
    as (guidelines & -> & Hplain).
  split; [| split].
  - rewrite prompt_prefix. apply starts_with_app.
  - intros items item -> Hin.
    destruct items as [| x items]; [done |].
    destruct (context_entries_mentions (x :: items) item Hin 1%nat) as (a & b & c & Hce).
    unfold context_text_of. rewrite Hce. split.
    + eapply str_in_infix. apply prompt_infix_question.
    + rewrite (app_assoc a), (app_assoc (a ++ _)).
      eapply str_in_infix. apply prompt_infix_question.
  - intros H1 H2 H3. rewrite (Hplain H1 H2 H3). by rewrite app_nil_r.
Qed.

(** ** More on the matcher *)

Lemma run_starts_in {R : Type} (p : Z -> bool) (r : regex) :
  starts_in p r ->
  forall (s : str) (cs : captures) (k : str -> captures -> option R),
    match s with [] => True | c :: _ => p c = false end ->
    run r s cs k = None.
Proof.
  induction r as [q | r1 IH1 r2 IH2 | r1 IH1 r2 IH2 | r1 IH1 | g r1 IH1 | i r1 IH1];
    simpl; intros Hr s cs k Hs; try done.
  - destruct s as [| c s']; [done |].
    destruct (q c) eqn:Hq; [| done]. rewrite (Hr c Hq) in Hs. discriminate.
  - by apply IH1.
  - destruct Hr as [H1 H2]. by rewrite IH1, IH2.
  - by apply IH1.
Qed.

Lemma sub_from_skip (r : regex) (repl : captures -> str) (y s : str) :
  sub_from r repl (y ++ s) (length y) = sub_from r repl s 0.
Proof. induction y as [| c y IH]; simpl; [done | apply IH]. Qed.

Lemma sub_from_prefix (p : Z -> bool) (r : regex) (repl : captures -> str) (a s : str) :
  starts_in p r -> forallb (fun c => negb (p c)) a = true ->
  sub_from r repl (a ++ s) 0 = a ++ sub_from r repl s 0.
Proof.
  intros Hr. induction a as [| c a IH]; simpl; [done |].
  intros [Hc Ha]%andb_prop. apply negb_true_iff in Hc.
  unfold match_at. rewrite (run_starts_in p r Hr) by done. by rewrite IH.
Qed.

(** A greedy star over a character class, followed by a rest that the class
    does not continue into, takes the whole run of the class. *)
Lemma star_class_greedy {R : Type} (p : Z -> bool) (k : str -> captures -> option R)
    (rest : str) (cs : captures) (res : R) :
  match rest with [] => True | c :: _ => p c = false end ->
  k rest cs = Some res ->
  forall (x : str) (n : nat),
    forallb p x = true -> (length x <= n)%nat ->
    star_loop true (run (Chr p)) k n (x ++ rest) cs = Some res.
Proof.
  intros Hrest Hk. induction x as [| c x IH]; intros n Hx Hn; simpl.
  - destruct n as [| n]; simpl; [done |].
    destruct rest as [| c rest']; [done |]. by rewrite Hrest.
  - simpl in Hx, Hn. apply andb_prop in Hx as [Hc Hx].
    destruct n as [| n]; [lia |]. simpl. rewrite Hc.
    assert ((length (x ++ rest) <? S (length (x ++ rest)))%nat = true) as ->
      by (apply Nat.ltb_lt; lia).
    rewrite IH by (done || lia). done.
Qed.

Lemma plus_class_greedy {R : Type} (p : Z -> bool) (k : str -> captures -> option R)
    (x rest : str) (cs : captures) (res : R) :
  x <> [] -> forallb p x = true ->
  match rest with [] => True | c :: _ => p c = false end ->
  k rest cs = Some res ->
  run (Plus (Chr p)) (x ++ rest) cs k = Some res.
Proof.
  intros Hne Hx Hrest Hk. destruct x as [| c x]; [done |].
  simpl in Hx. apply andb_prop in Hx as [Hc Hx].
  simpl. rewrite Hc. apply star_class_greedy; rewrite ?length_app; (done || lia).
Qed.

Lemma take_consumed (x rest : str) :
  take (length (x ++ rest) - length rest) (x ++ rest) = x.
Proof.
  rewrite length_app, Nat.add_sub. by rewrite take_app_length.
Qed.

(** ** The code formatter *)

Lemma code_pattern_requires ua : requires (CharClass.chr 96) (code_pattern ua).
Proof.
  unfold code_pattern.
  change (Lit (u "```")) with
    (Seq (Chr (CharClass.chr 96)) (Seq (Chr (CharClass.chr 96)) (Chr (CharClass.chr 96)))).
  cbn [requires]. left. left. done.
Qed.

Lemma inline_code_pattern_requires : requires (CharClass.chr 96) inline_code_pattern.
Proof. unfold inline_code_pattern. cbn [requires]. left. done. Qed.

Lemma inline_code_pattern_starts : starts_in (CharClass.chr 96) inline_code_pattern.
Proof. unfold inline_code_pattern. cbn [starts_in]. done. Qed.

(** X18: a text without a backtick is returned by the code formatter as it
    is, whatever the language. *)
Theorem format_code_answer_without_backtick
    (uni_alnum : Z -> bool) (answer language : str) :
  free (CharClass.chr 96) answer ->
  format_code_answer uni_alnum answer language = answer.
Proof.
  intros Hfree. unfold format_code_answer. cbv zeta.
  rewrite (re_sub_free (CharClass.chr 96) (code_pattern uni_alnum) _ answer
             (code_pattern_requires uni_alnum) Hfree).
  exact (re_sub_free (CharClass.chr 96) inline_code_pattern _ answer
           inline_code_pattern_requires Hfree).
Qed.

Lemma format_code_answer_without_backtick_witness :
  format_code_answer Sample.uni_alnum (u "Use a for loop.") default_language
  = u "Use a for loop.".
Proof.
  apply (format_code_answer_without_backtick Sample.uni_alnum (u "Use a for loop.")
           default_language).
  vm_compute. reflexivity.
Defined.

Lemma code_pattern_needs_two_backticks ua (s : str) :
  match s with a :: b :: _ => (a =? 96) && (b =? 96) = false | _ => True end ->
  match_at (code_pattern ua) s = None.
Proof.
  intros Hs. unfold match_at, code_pattern.
  change (Lit (u "```")) with
    (Seq (Chr (CharClass.chr 96)) (Seq (Chr (CharClass.chr 96)) (Chr (CharClass.chr 96)))).
  cbn [run]. unfold CharClass.chr.
  destruct s as [| a [| b s']]; [done | by destruct (96 =? a) |].
  rewrite (Z.eqb_sym 96 a), (Z.eqb_sym 96 b).
  destruct (a =? 96); [| done]. destruct (b =? 96); [discriminate | done].
Qed.

Lemma fence_pass_no_double_backtick ua (repl : captures -> str) (s : str) :
  no_double_backtick s = true -> re_sub (code_pattern ua) repl s = s.
Proof.
  unfold re_sub. induction s as [| a s IH]; intros Hs.
  - cbn [sub_from]. by rewrite code_pattern_needs_two_backticks.
  - cbn [sub_from]. rewrite code_pattern_needs_two_backticks.
    + f_equal. apply IH. destruct s; [done |].
      cbn [no_double_backtick] in Hs. by apply andb_prop in Hs as [_ Hs].
    + destruct s as [| b s']; [done |].
      cbn [no_double_backtick] in Hs. apply andb_prop in Hs as [Hs _].
      by apply negb_true_iff in Hs.
Qed.

Lemma no_double_backtick_cons (a : Z) (s : str) :
  no_double_backtick (a :: s)
  = match s with
    | b :: _ => negb ((a =? 96) && (b =? 96))
    | [] => true
    end && no_double_backtick s.
Proof. by destruct s. Qed.

Lemma no_double_backtick_app (a s : str) :
  free (CharClass.chr 96) a -> no_double_backtick s = true ->
  no_double_backtick (a ++ s) = true.
Proof.
  intros Ha Hs. induction a as [| c a IH]; [done |].
  apply free_cons in Ha as [Hc Ha]. specialize (IH Ha).
  unfold CharClass.chr in Hc. rewrite Z.eqb_sym in Hc.
  change ((c :: a) ++ s) with (c :: (a ++ s)).
  rewrite no_double_backtick_cons, IH, Hc. by destruct (a ++ s).
Qed.

Lemma no_double_backtick_span (x b : str) :
  x <> [] -> free (CharClass.chr 96) x -> free (CharClass.chr 96) b ->
  no_double_backtick ([96] ++ x ++ [96] ++ b) = true.
Proof.
  intros Hne Hx Hb.
  change ([96] ++ x ++ [96] ++ b) with (96 :: (x ++ 96 :: b)).
  rewrite no_double_backtick_cons. apply andb_true_intro. split.
  - destruct x as [| c x']; [done |]. apply free_cons in Hx as [Hc _].
    unfold CharClass.chr in Hc. rewrite Z.eqb_sym in Hc.
    change ((c :: x') ++ 96 :: b) with (c :: (x' ++ 96 :: b)). cbv iota.
    by rewrite Hc, andb_false_r.
  - apply no_double_backtick_app; [done |].
    rewrite no_double_backtick_cons. apply andb_true_intro. split.
    + destruct b as [| d b']; [done |]. apply free_cons in Hb as [Hd _].
      unfold CharClass.chr in Hd. rewrite Z.eqb_sym in Hd.
      by rewrite Hd, andb_false_r.
    + rewrite <- (app_nil_r b). by apply no_double_backtick_app.
Qed.

Lemma match_inline_span (x b : str) :
  x <> [] -> free (CharClass.chr 96) x ->
  match b with [] => True | c :: _ => CharClass.chr 96 c = false end ->
  match_at inline_code_pattern (96 :: x ++ 96 :: b)
  = Some (<[1%nat := x]> ∅, S (S (length x))).
Proof.
  intros Hne Hx Hb. unfold match_at, inline_code_pattern.
  cbn [run]. change (CharClass.chr 96 96) with true. cbv iota.
  erewrite (plus_class_greedy CharClass.not_backtick); [reflexivity | done | | done |].
  - unfold free in Hx. unfold CharClass.not_backtick. exact Hx.
  - cbn [run]. change (CharClass.chr 96 96) with true. cbv iota.
    rewrite (take_consumed x (96 :: b)). f_equal. f_equal.
    cbn [length]. rewrite length_app. cbn [length]. lia.
Qed.

(** X19: in a text with one inline span, [a `x` b] with no backtick in [a],
    [x] and [b] and [x] not empty, the code formatter replaces the span by
    [<code>x</code>] and leaves [a] and [b] as they are. *)
Theorem format_code_answer_inline_span
    (uni_alnum : Z -> bool) (a x b language : str) :
  x <> [] ->
  free (CharClass.chr 96) a -> free (CharClass.chr 96) x -> free (CharClass.chr 96) b ->
  format_code_answer uni_alnum (a ++ [96] ++ x ++ [96] ++ b) language
  = a ++ u "<code>" ++ x ++ u "</code>" ++ b.
Proof.
  intros Hne Ha Hx Hb. unfold format_code_answer. cbv zeta.
  assert (Hhead : match b with [] => True | c :: _ => CharClass.chr 96 c = false end).
  { destruct b; [done |]. by apply free_cons in Hb as [Hb _]. }
  rewrite fence_pass_no_double_backtick.
  - unfold re_sub.
    rewrite (sub_from_prefix (CharClass.chr 96))
      by (apply inline_code_pattern_starts || done).
    cbn [app sub_from]. rewrite match_inline_span by done.
    change (x ++ 96 :: b) with (x ++ [96] ++ b).
    rewrite (app_assoc x [96] b).
    replace (S (length x)) with (length (x ++ [96])) by (rewrite length_app; simpl; lia).
    rewrite sub_from_skip.
    pose proof (re_sub_free (CharClass.chr 96) inline_code_pattern inline_code_repl b
                  inline_code_pattern_requires Hb) as Hrest.
    unfold re_sub in Hrest. rewrite Hrest.
    unfold inline_code_repl, group. rewrite lookup_insert_eq. simpl.
    by rewrite <- !app_assoc.
  - apply no_double_backtick_app; [done |]. by apply no_double_backtick_span.
Qed.

Lemma format_code_answer_inline_span_witness :
  format_code_answer Sample.uni_alnum
    (u "call " ++ [96] ++ u "print(1)" ++ [96] ++ u " twice") default_language
  = u "call " ++ u "<code>" ++ u "print(1)" ++ u "</code>" ++ u " twice".
Proof.
  apply (format_code_answer_inline_span Sample.uni_alnum (u "call ") (u "print(1)")
           (u " twice") default_language).
  - vm_compute. discriminate.
  - vm_compute. reflexivity.
  - vm_compute. reflexivity.
  - vm_compute. reflexivity.
Defined.

(** ** The math formatter on an exponent *)

Lemma plus_class_greedy_all {R : Type} (p : Z -> bool) (k : str -> captures -> option R)
    (x : str) (cs : captures) (res : R) :
  x <> [] -> forallb p x = true -> k [] cs = Some res ->
  run (Plus (Chr p)) x cs k = Some res.
Proof.
  intros Hne Hx Hk. rewrite <- (app_nil_r x). by apply plus_class_greedy.
Qed.

Lemma free_app (P : Z -> bool) (a b : str) :
  free P a -> free P b -> free P (a ++ b).
Proof. unfold free. intros Ha Hb. by rewrite forallb_app, Ha, Hb. Qed.

Lemma match_exponent ua (base exp : str) :
  base <> [] -> exp <> [] ->
  forallb (CharClass.word ua) base = true -> forallb (CharClass.word ua) exp = true ->
  match_at (exponent_pattern ua) (base ++ [42; 42] ++ exp)
  = Some (<[2%nat := exp]> (<[1%nat := base]> ∅), length (base ++ [42; 42] ++ exp)).
Proof.
  intros Hb He Hwb Hwe. unfold match_at, exponent_pattern. cbv zeta. cbn [run].
  erewrite (plus_class_greedy (CharClass.word ua)); [reflexivity | done | done | done |].
  cbn [app run]. change (CharClass.chr 42 42) with true. cbv iota.
  erewrite (plus_class_greedy_all (CharClass.word ua)); [reflexivity | done | done |].
  change (42 :: 42 :: exp) with ([42; 42] ++ exp).
  rewrite (take_consumed base ([42; 42] ++ exp)).
  cbn [length]. by rewrite Nat.sub_0_r, firstn_all, Nat.sub_0_r.
Qed.

(** X20: a single exponent [base**exp], with [base] and [exp] non-empty
    words that contain none of the listed symbols, is turned by the math
    formatter into [$base^{exp}$]. *)
Theorem format_math_answer_exponent
    (uni_alnum : Z -> bool) (base exp : str) :
  base <> [] -> exp <> [] ->
  forallb (CharClass.word uni_alnum) base = true ->
  forallb (CharClass.word uni_alnum) exp = true ->
  free math_trigger base -> free math_trigger exp ->
  format_math_answer uni_alnum (base ++ u "**" ++ exp)
  = u "$" ++ base ++ u "^{" ++ exp ++ u "}$".
Proof.
  intros Hb He Hwb Hwe Hfb Hfe.
  assert (re_sub (exponent_pattern uni_alnum) exponent_repl (base ++ u "**" ++ exp)
          = u "$" ++ base ++ u "^{" ++ exp ++ u "}$") as Hfirst.
  { change (u "**") with [42; 42]. unfold re_sub.
    destruct (base ++ [42; 42] ++ exp) as [| c s] eqn:Es.
    { by destruct base. }
    cbn [sub_from]. rewrite <- Es, match_exponent by done. rewrite Es.
    cbn [length]. rewrite <- (app_nil_r s) at 1. rewrite sub_from_skip.
    cbn [sub_from]. unfold match_at, exponent_pattern. cbn [run Plus].
    unfold exponent_repl, group.
    rewrite lookup_insert_ne, !lookup_insert_eq by done. cbn [default].
    by rewrite app_nil_r. }
  unfold format_math_answer. cbv zeta. rewrite Hfirst.
  assert (free math_trigger (u "$" ++ base ++ u "^{" ++ exp ++ u "}$")) as Hfree.
  { repeat apply free_app; (done || (vm_compute; reflexivity)). }
  revert Hfree. generalize (u "$" ++ base ++ u "^{" ++ exp ++ u "}$"). intros t Ht.
  induction math_patterns_require as [| r rs Hr _ IH]; simpl; [done |].
  by rewrite (re_sub_free math_trigger).
Qed.

Lemma format_math_answer_exponent_witness :
  format_math_answer Sample.uni_alnum (u "speed" ++ u "**" ++ u "2")
  = u "$" ++ u "speed" ++ u "^{" ++ u "2" ++ u "}$".
Proof.
  apply (format_math_answer_exponent Sample.uni_alnum (u "speed") (u "2"));
    (vm_compute; (discriminate || reflexivity)).
Defined.

(** ** The pipeline *)

Lemma generate_ai_answer_shape self net question category context :
  exists t r,
    generate_ai_answer self net question category context = (t, inr r)
    /\ (length t <= 1)%nat
    /\ AIResponse.category r = category
    /\ AIResponse.sources r = sources_of context.
Proof.
  rewrite generate_unfold.
  unfold _call_openai, _call_claude, post, mbind, M_bind, try_except, raise, mret, M_ret.
  destruct (truthy (openai_api_key self)); [| destruct (truthy (claude_api_key self))].
  - destruct (net OpenAI _ _) as [| [status [text |]]]; cbn [status_code body];
      [| destruct (status =? 200) ..]; cbn [app];
      (eexists; eexists; split; [reflexivity |]); (split; [simpl; lia |]);
      (split; reflexivity).
  - destruct (net Claude _ _) as [| [status [text |]]]; cbn [status_code body];
      [| destruct (status =? 200) ..]; cbn [app];
      (eexists; eexists; split; [reflexivity |]); (split; [simpl; lia |]);
      (split; reflexivity).
  - eexists; eexists; split; [reflexivity |]. split; [simpl; lia |]. split; reflexivity.
Qed.

(** X21: for every question, [ask_ai] sends at most one request and returns
    a result, never an exception; the category it reports is the one the
    classifier gives and is the category of the response; the response has at
    most three sources; and the answer it reports is the response's answer
    after the formatter of that category. *)
Theorem ask_ai_pipeline
    (uni_alnum : Z -> bool) (uni_lower : str -> Z -> str -> str)
    (rag_service : RAGService) (net : network) (question : str) :
  (length (trace (ask_ai uni_alnum uni_lower rag_service net question)) <= 1)%nat
  /\ exists r,
       outcome (ask_ai uni_alnum uni_lower rag_service net question)
       = inr (formatted_answer uni_alnum
                (classify_question_category uni_lower question) (AIResponse.answer r),
              classify_question_category uni_lower question, r)
       /\ AIResponse.category r = classify_question_category uni_lower question
       /\ (length (AIResponse.sources r) <= 3)%nat.
Proof.
  unfold ask_ai.
  destruct (generate_ai_answer_shape rag_service net question
              (classify_question_category uni_lower question)
              (Some (search_relevant_qa uni_lower (qa_database rag_service) question
                       (Some (classify_question_category uni_lower question)))))
    as (t & r & -> & Ht & Hc & Hs).
  unfold mbind, M_bind, mret, M_ret, trace, outcome. cbn [fst snd].
  split; [by rewrite app_nil_r |].
  exists r. split; [done |]. split; [done |].
  rewrite Hs. unfold sources_of, search_relevant_qa.
  destruct (qa_database rag_service); simpl; [| lia].
  rewrite !length_map, length_take. lia.
Qed.

(** X22: with no credential configured, a question written in ASCII only is
    answered without any request by the General template, followed by the
    related questions that were found, and the text is not formatted. *)
Theorem ask_ai_ascii_without_providers
    (uni_alnum : Z -> bool) (uni_lower : str -> Z -> str -> str)
    (rag_service : RAGService) (net : network) (question : str) :
  ascii question ->
  truthy (openai_api_key rag_service) = false ->
  truthy (claude_api_key rag_service) = false ->
  exists sources,
    sources = map ci_question
                (search_relevant_qa uni_lower (qa_database rag_service) question
                   (Some cat_general))
    /\ ask_ai uni_alnum uni_lower rag_service net question
       = ([], inr (AIResponse.answer (_generate_fallback_answer question cat_general sources),
                   cat_general,
                   _generate_fallback_answer question cat_general sources))
    /\ starts_with (fallback_template cat_general)
         (AIResponse.answer (_generate_fallback_answer question cat_general sources)) = true.
Proof.
  intros Hq Ha Hb. eexists. split; [reflexivity |].
  unfold ask_ai. rewrite (classify_ascii uni_lower question Hq).
  rewrite generate_unfold, Ha, Hb. split; [reflexivity |].
  unfold _generate_fallback_answer. cbn [AIResponse.answer].
  fold (fallback_template cat_general).
  destruct (map ci_question _).
  - rewrite <- (app_nil_r (fallback_template cat_general)) at 2. apply starts_with_app.
  - apply starts_with_app.
Qed.

Lemma ask_ai_ascii_without_providers_witness :
  exists sources,
    sources = map ci_question
                (search_relevant_qa Sample.uni_lower (qa_database Sample.no_keys)
                   (u "What is DNS?") (Some cat_general))
    /\ ask_ai Sample.uni_alnum Sample.uni_lower Sample.no_keys Sample.all_down
         (u "What is DNS?")
       = ([], inr (AIResponse.answer
                     (_generate_fallback_answer (u "What is DNS?") cat_general sources),
                   cat_general,
                   _generate_fallback_answer (u "What is DNS?") cat_general sources))
    /\ starts_with (fallback_template cat_general)
         (AIResponse.answer
            (_generate_fallback_answer (u "What is DNS?") cat_general sources)) = true.
Proof.
  apply (ask_ai_ascii_without_providers Sample.uni_alnum Sample.uni_lower Sample.no_keys
           Sample.all_down (u "What is DNS?")).
  - vm_compute. repeat constructor.
  - reflexivity.
  - reflexivity.
Defined.

(** ** The fixed points of the math formatter *)

Section Reach.
Context {R : Type}.


End Reach.


Section Growth.
(** A pattern and a replacement that is longer than what it replaces. *)
Variable r : regex.
Variable repl : captures -> str.
Hypothesis repl_longer :
  forall s cs n, match_at r s = Some (cs, n) -> (n < length (repl cs))%nat.



End Growth.








